(** * The generate-execute-repair loop of [utility/ai_agent.js]

    A shallow embedding of the agent that asks a generative service for a
    browser-test script, writes it to a fixed file per framework, runs the
    framework's command on it and feeds the failure text back into the next
    request.  The development follows the order of the source file:

    - JavaScript strings and the [path] helpers the agent uses;
    - the shapes of the data exchanged with the generative service;
    - the world the agent acts on (console, file system, service, shell)
      and a small state-and-exception monad over it;
    - [getProjectContext], [basePrompts], [generateTestScript],
      [executeTestScript], [generateAndDebug], [generateAll];
    - the properties of the scan, the prompt, the script and the loop,
      and concrete runs.

    Strings are sequences of bytes (UTF-8).  The source works on UTF-16
    code units, but it only splits at the line feed, searches for the
    ASCII fence and compares ASCII suffixes; none of those bytes occurs
    inside a multi-byte sequence, so both views agree. *)

From Stdlib Require Import Ascii String DecimalString.
From Equations Require Import Equations.
From stdpp Require Import base gmap strings list.

(** ** JavaScript strings *)

Module Js.

(** The line feed the source writes as a backslash followed by n. *)
Definition nl : string := String "010"%char "".

(** The double quote, built from its code. *)
Definition dquote : string := String "034"%char "".

(** [s.split(nl)]: the pieces between line feeds; the empty string has
    the single piece [""], and a trailing line feed yields a last empty
    piece. *)
Fixpoint split_lines (s : string) : list string :=
  match s with
  | EmptyString => [EmptyString]
  | String c rest =>
      if Ascii.eqb c "010"%char then EmptyString :: split_lines rest
      else match split_lines rest with
           | l :: ls => String c l :: ls
           | [] => [String c EmptyString]
           end
  end.

(** [pieces.join(sep)]. *)
Definition join (sep : string) (pieces : list string) : string :=
  String.concat sep pieces.

(** The pieces one after the other. *)
Definition concat_all (pieces : list string) : string :=
  fold_right String.append EmptyString pieces.

(** [s.includes(sub)]. *)
Fixpoint includes (s sub : string) : bool :=
  String.prefix sub s
  || match s with
     | EmptyString => false
     | String _ rest => includes rest sub
     end.

(** [s.endsWith(suffix)]. *)
Fixpoint endsWith (s suffix : string) : bool :=
  String.eqb s suffix
  || match s with
     | EmptyString => false
     | String _ rest => endsWith rest suffix
     end.

(** A string without a line feed. *)
Fixpoint single_line (s : string) : bool :=
  match s with
  | EmptyString => true
  | String c rest => negb (Ascii.eqb c "010"%char) && single_line rest
  end.

(** Truthiness of a string: every string but the empty one. *)
Definition truthy (s : string) : bool := negb (String.eqb s EmptyString).

(** Truthiness of a possibly undefined string. *)
Definition truthy_opt (o : option string) : bool :=
  match o with
  | Some s => truthy s
  | None => false
  end.

(** A number interpolated into a template literal. *)
Definition of_nat (n : nat) : string := NilZero.string_of_uint (Nat.to_uint n).

(** A possibly undefined string interpolated into a template literal. *)
Definition interpolate (o : option string) : string :=
  match o with
  | Some s => s
  | None => "undefined"
  end.

End Js.

(** ** Errors and completions *)

(** An error value as the agent reads it: every error has a [message]; the
    rejection of a promisified [exec] also carries the captured [stderr]. *)
Record JsError := mkError {
  message : string;
  stderr : option string
  }.

(** How a call completes: it returns, or it throws (an awaited promise that
    rejects throws at the [await]). *)
Inductive Completion (A : Type) : Type :=
  | Normal (a : A)
  | Throw (e : JsError).
Arguments Normal {A} a.
Arguments Throw {A} e.

(** ** The generative service's data *)

Module Genai.

Record ExecutableCode := { code : option string }.

(** A content part; the source probes the two fields it knows. *)
Record Part := {
    text : option string;
    executableCode : option ExecutableCode
  }.

Record Content := { parts : option (list Part) }.
Record Candidate := { content : option Content }.
Record Response := { candidates : option (list Candidate) }.

(** One role-tagged entry of [contents]; a text may be [undefined] when
    the framework has no template. *)
Record RequestContent := {
    role : string;
    texts : list (option string)
  }.

Record Request := {
    model : string;
    contents : list RequestContent;
    codeExecution : bool
  }.

End Genai.

(** What [execPromise] resolves with. *)
Record ExecOutput := { stdout : string; exec_stderr : string }.

(** What [executeTestScript] returns. *)
Record ExecResult := { success : bool; output : string }.

(** A directory entry as [readdirSync] with [withFileTypes] reports it,
    together with what lies below it: a regular file, a directory with its
    own entries, or anything else (a symbolic link, a socket, ...), for
    which both [isFile()] and [isDirectory()] are false. *)
#[local] Unset Elimination Schemes.
Inductive Dirent :=
  | File (name : string)
  | Dir (name : string) (entries : list Dirent)
  | Special (name : string).
#[local] Set Elimination Schemes.

(** ** The world *)

Inductive Level := Log | Warn | Error.

(** What the agent does to its surroundings, in the order it does it. *)
Inductive Event :=
  | EvReaddir (dir : string)
  | EvGenerateContent (req : Genai.Request)
  | EvWriteFile (path data : string)
  | EvExec (command : string)
  | EvConsole (level : Level) (msg : string).

(** The surroundings.  [trace] records the events so far; [files] holds the
    files written, by path.  The service and the shell are scripted: the
    [n]-th request (counted from 0) completes with [ai_reply n], the [n]-th
    command with [shell_reply n].  As the agent is deterministic, the
    [n]-th request is itself fixed by the earlier replies, so a script by
    position describes every possible behaviour of the two. *)
Record World := mkWorld {
  trace : list Event;
  files : gmap string string;
  ai_reply : nat -> Completion (option Genai.Response);
  shell_reply : nat -> Completion ExecOutput
  }.

Definition is_generate (e : Event) : bool :=
  match e with EvGenerateContent _ => true | _ => false end.
Definition is_exec (e : Event) : bool :=
  match e with EvExec _ => true | _ => false end.
Definition is_write (e : Event) : bool :=
  match e with EvWriteFile _ _ => true | _ => false end.
Definition is_readdir (e : Event) : bool :=
  match e with EvReaddir _ => true | _ => false end.

(** How many events of a trace satisfy [p]. *)
Definition count (p : Event -> bool) (t : list Event) : nat :=
  length (List.filter p t).

(** A console message that starts with [p]. *)
Definition says (p : string) (e : Event) : bool :=
  match e with
  | EvConsole _ msg => String.prefix p msg
  | _ => false
  end.

(** Some event satisfying [q] comes later in the trace than some event
    satisfying [p]. *)
Fixpoint occurs_after (p q : Event -> bool) (t : list Event) : bool :=
  match t with
  | [] => false
  | e :: rest => (p e && existsb q rest) || occurs_after p q rest
  end.

(** ** The monad: state over [World], with exceptions *)

Definition M (A : Type) : Type := World -> Completion A * World.

Definition ret {A} (a : A) : M A := fun w => (Normal a, w).

Definition bind {A B} (m : M A) (k : A -> M B) : M B :=
  fun w =>
    match m w with
    | (Normal a, w') => k a w'
    | (Throw e, w') => (Throw e, w')
    end.

Definition throw {A} (e : JsError) : M A := fun w => (Throw e, w).

(** [try { body } catch (err) { handler }]. *)
Definition try_catch {A} (body : M A) (handler : JsError -> M A) : M A :=
  fun w =>
    match body w with
    | (Normal a, w') => (Normal a, w')
    | (Throw e, w') => handler e w'
    end.

Declare Scope agent_scope.
Delimit Scope agent_scope with agent.
Notation "x <- m ;; k" := (bind m (fun x => k))
  (at level 100, m at next level, right associativity) : agent_scope.
Notation "m ;; k" := (bind m (fun _ => k))
  (at level 100, right associativity) : agent_scope.
Open Scope agent_scope.

Definition emit (e : Event) : M unit :=
  fun w => (Normal tt,
            mkWorld (trace w ++ [e]) (files w) (ai_reply w) (shell_reply w)).

Definition console_log (msg : string) : M unit := emit (EvConsole Log msg).
Definition console_warn (msg : string) : M unit := emit (EvConsole Warn msg).
Definition console_error (msg : string) : M unit := emit (EvConsole Error msg).

(** [readdirSync(dir, { withFileTypes: true })] on a directory whose
    entries are [entries]. *)
Definition readdirSync (dir : string) (entries : list Dirent) : M (list Dirent) :=
  emit (EvReaddir dir) ;; ret entries.

(** [writeFileSync(path, data)]: creates or replaces the file.  The write
    is taken to succeed (the module creates the [tests] directory when it
    is loaded).  A write that the file system refuses throws at the call,
    which no function of the module catches; such runs are outside this
    model, and the properties of the setup functions below are stated for
    the calls that return. *)
Definition writeFileSync (path data : string) : M unit :=
  fun w => (Normal tt,
            mkWorld (trace w ++ [EvWriteFile path data])
                    (<[path := data]> (files w)) (ai_reply w) (shell_reply w)).

(** [await ai.models.generateContent(req)]. *)
Definition ai_models_generateContent (req : Genai.Request)
  : M (option Genai.Response) :=
  fun w => (ai_reply w (count is_generate (trace w)),
            mkWorld (trace w ++ [EvGenerateContent req])
                    (files w) (ai_reply w) (shell_reply w)).

(** [await execPromise(command)]: resolves when the command exits with
    status zero and rejects otherwise.  [files] follows the writes of the
    agent only: what a command does to the file system on its own is not
    part of the model, and nothing is stated below of the files an
    install leaves. *)
Definition execPromise (command : string) : M ExecOutput :=
  fun w => (shell_reply w (count is_exec (trace w)),
            mkWorld (trace w ++ [EvExec command])
                    (files w) (ai_reply w) (shell_reply w)).

(** ** The path helpers *)

Module Path.

(** [s.split("/")], as [Js.split_lines] does for the line feed. *)
Fixpoint split_slash (s : string) : list string :=
  match s with
  | EmptyString => [EmptyString]
  | String c rest =>
      if Ascii.eqb c "/"%char then EmptyString :: split_slash rest
      else match split_slash rest with
           | l :: ls => String c l :: ls
           | [] => [String c EmptyString]
           end
  end.

(** [path.basename(p)]: the last non-empty component of [p]. *)
Definition basename (p : string) : string :=
  List.last (List.filter Js.truthy (split_slash p)) EmptyString.

(** [path.join(dir, name)] and [path.resolve(dir, name)] where [dir] is
    an absolute, normalised directory (the agent only passes what
    [path.resolve] returned, or such a directory extended by entry
    names) and [name] is one plain component: the two are put together
    with one separator, which the file-system root already ends with. *)
Definition join (dir name : string) : string :=
  if String.eqb dir "/" then "/" +:+ name else dir +:+ "/" +:+ name.

Definition resolve (dir name : string) : string :=
  if Js.truthy name then join dir name else dir.

(** [path.join(dir, x)] where [x] may be [undefined]: every argument has
    to be a string. *)
Definition join_opt (dir : string) (x : option string) : M string :=
  match x with
  | Some name => ret (join dir name)
  | None =>
      throw (mkError ("The " +:+ Js.dquote +:+ "path" +:+ Js.dquote
                      +:+ " argument must be of type string. Received undefined")
                     None)
  end.

(** A component: a string without a separator. *)
Fixpoint plain (s : string) : bool :=
  match s with
  | EmptyString => true
  | String c rest => negb (Ascii.eqb c "/"%char) && plain rest
  end.

(** [path.join(dir, '..', name)] for an absolute, normalised [dir] and a
    plain component [name]: the last component of [dir] is dropped (the
    file-system root has none to drop) and [name] is put in its place. *)
Definition join_up (dir name : string) : string :=
  "/" +:+ Js.join "/"
            (removelast (List.filter Js.truthy (split_slash dir)) ++ [name]).

End Path.

(** ** The agent *)

Definition MAX_ATTEMPTS : nat := 3.

(** The own properties of the object [OUTPUT_FILES].  For a name the
    object inherits from [Object.prototype] the source reads a value
    that is not a string; [path.join] throws for it as it does for
    [undefined], with another message. *)
Definition OUTPUT_FILES : gmap string string :=
  <["PLAYWRIGHT" := "google_navigation.playwright.spec.ts"]>
  (<["TESTCAFE" := "google_navigation.testcafe.ts"]>
   (<["SELENIUM" := "google_navigation.selenium.spec.cjs"]> ∅)).

(** [items.forEach(item => f(item))] where the callback updates a value
    it shares with its caller. *)
Definition forEach {A S} (f : A -> S -> M S) : list A -> S -> M S :=
  fix each (items : list A) (s : S) : M S :=
    match items with
    | [] => ret s
    | item :: rest => s' <- f item s ;; each rest s'
    end.

(** [['node_modules', '.git'].includes(name)]. *)
Definition excluded (name : string) : bool :=
  String.eqb name "node_modules" || String.eqb name ".git".

Definition source_file (name : string) : bool :=
  Js.endsWith name ".ts" || Js.endsWith name ".js".

Definition dir_line (fullPath : string) : string := "📁 " +:+ fullPath.
Definition file_line (fullPath : string) : string := "📄 " +:+ fullPath.

(** The callback of the [forEach] in [readDirRecursive(dir)], with the
    recursive call unfolded in place: [projectFiles] is the array the
    closure pushes to, and where the entry is a directory that is kept,
    its own entries are read and visited in turn. *)
Fixpoint visit (dir : string) (item : Dirent) (projectFiles : list string)
  : M (list string) :=
  match item with
  | Dir name entries =>
      let fullPath := Path.join dir name in
      if negb (excluded name) then
        let projectFiles := projectFiles ++ [dir_line fullPath] in
        readdirSync fullPath entries ;;
        forEach (visit fullPath) entries projectFiles
      else ret projectFiles
  | File name =>
      let fullPath := Path.join dir name in
      if source_file name
      then ret (projectFiles ++ [file_line fullPath])
      else ret projectFiles
  | Special name => ret projectFiles
  end.

Definition readDirRecursive (dir : string) (entries : list Dirent)
  (projectFiles : list string) : M (list string) :=
  items <- readdirSync dir entries ;;
  forEach (visit dir) items projectFiles.

(** [getProjectContext()], for a project whose root directory is [root]
    (the parent of the module's directory) and holds [project]. *)
Definition getProjectContext (root : string) (project : list Dirent) : M string :=
  projectFiles <- readDirRecursive root project [] ;;
  ret (Js.join Js.nl projectFiles).

(** *** The listing, as the specification words it

    Every entry beneath the root is met by a full depth-first walk; the
    listing keeps, in that order, the directories and the source files
    that neither are nor lie below a directory named [node_modules] or
    [.git], each with its marker. *)

(** An entry met by the walk: its full path, the names of the directories
    between the root and the entry, and the entry. *)
Record Walked := mkWalked {
  full_path : string;
  above : list string;
  entry : Dirent
  }.

Fixpoint walk_entry (dir : string) (above : list string) (item : Dirent)
  : list Walked :=
  match item with
  | Dir name entries =>
      mkWalked (Path.join dir name) above item
      :: flat_map (walk_entry (Path.join dir name) (above ++ [name])) entries
  | File name => [mkWalked (Path.join dir name) above item]
  | Special name => [mkWalked (Path.join dir name) above item]
  end.

Definition walk (root : string) (project : list Dirent) : list Walked :=
  flat_map (walk_entry root []) project.

Definition allowed (name : string) : bool := negb (excluded name).

(** No directory on the way down to the entry is excluded. *)
Definition reachable (x : Walked) : bool := forallb allowed (above x).

(** The line the listing has for an entry, if any. *)
Definition listed (x : Walked) : option string :=
  if reachable x then
    match entry x with
    | Dir name _ => if excluded name then None else Some (dir_line (full_path x))
    | File name => if source_file name then Some (file_line (full_path x)) else None
    | Special _ => None
    end
  else None.

(** The directory the scan reads for an entry, if any. *)
Definition scanned (x : Walked) : option string :=
  if reachable x then
    match entry x with
    | Dir name _ => if excluded name then None else Some (full_path x)
    | _ => None
    end
  else None.

(** *** The prompts

    The three templates, for the [tests] directory [TESTDIR] and the value
    [getProjectContext()] returned when each was built. *)
Definition playwrightPrompt (TESTDIR context : string) : string :=
  "Generate an accurate and fully executable Playwright test script in TypeScript.
Project Structure Context:
" +:+ context +:+ "

Current working directory: " +:+ TESTDIR +:+ "
Target output file: " +:+ Js.interpolate (OUTPUT_FILES !! "PLAYWRIGHT") +:+ "

Include meaningful inline comments to explain each step. The output should be code-only, with no explanation or description outside the code block. Also console log each test step.".

Definition testcafePrompt (TESTDIR context : string) : string :=
  "Generate an accurate and fully executable in CLI TestCafe test script in TypeScript.
Project Structure Context:
" +:+ context +:+ "

Current working directory: " +:+ TESTDIR +:+ "
Target output file: " +:+ Js.interpolate (OUTPUT_FILES !! "TESTCAFE") +:+ "

Include meaningful inline comments to explain each step. The output should be code-only, with no explanation or description outside the code block. Also console log each test step.

also handle invisible elements and wait for them to be visible before interacting with them. handle unwanted popups and alerts gracefully.".

Definition seleniumPrompt (TESTDIR context : string) : string :=
  "Generate an accurate and fully executable Selenium WebDriver test script in JavaScript .
Project Structure Context:
" +:+ context +:+ "

Current working directory: " +:+ TESTDIR +:+ "
Target output file: " +:+ Js.interpolate (OUTPUT_FILES !! "SELENIUM") +:+ "

Use Selenium WebDriver with JavaScript (CommonJS). Use require() instead of import. The test should use mocha describe and it functions.

Include meaningful inline comments to explain each step. The output should be code-only, with no explanation or description outside the code block. Also console log each test step.
Handle popups and alerts gracefully. Wait for elements to be visible before interacting with them.".

(** The initialiser of the module constant [basePrompts]: the project
    is scanned once for each template. *)
Definition load_basePrompts (TESTDIR root : string) (project : list Dirent)
  : M (gmap string string) :=
  c1 <- getProjectContext root project ;;
  c2 <- getProjectContext root project ;;
  c3 <- getProjectContext root project ;;
  ret (<["PLAYWRIGHT" := playwrightPrompt TESTDIR c1]>
       (<["TESTCAFE" := testcafePrompt TESTDIR c2]>
        (<["SELENIUM" := seleniumPrompt TESTDIR c3]> ∅))).

Definition userPrompt : string :=
  "Navigate to https://www.webpagetest.org/ and handle any popups, 
wait for 2 seconds,
then navigate to thoughtworks.com and wait for 2 seconds,
then close the browser".

(** ** Setup: dependencies and configuration files *)

(** [existsSync(path)], on the files of the world. *)
Definition existsSync (path : string) : M bool :=
  fun w => (Normal (bool_decide (is_Some (files w !! path))), w).

(** [for (const item of items) { body }], with an [await] in the body. *)
Fixpoint for_of {A} (items : list A) (body : A -> M unit) : M unit :=
  match items with
  | [] => ret tt
  | item :: rest => body item ;; for_of rest body
  end.

(** The entries of [dependencies], in the order [Object.entries] gives
    them (the order the keys are written in). *)
Definition dependencies : list (string * list string) :=
  [ ("PLAYWRIGHT", ["@playwright/test"; "playwright"]);
    ("SELENIUM", ["selenium-webdriver"; "@types/selenium-webdriver"; "mocha";
                  "@types/mocha"; "chai"; "@types/chai"; "ts-mocha";
                  "typescript"]);
    ("TESTCAFE", ["testcafe"]);
    ("APPIUM", ["webdriverio"; "appium"; "@wdio/appium-service"]) ].

Module Json.

(** The values the two configuration objects are made of. *)
#[local] Unset Elimination Schemes.
Inductive Value :=
  | Str (s : string)
  | Num (n : N)
  | Bool (b : bool)
  | Arr (items : list Value)
  | Obj (members : list (string * Value)).
#[local] Set Elimination Schemes.

(** A string between double quotes.  The keys and strings of the two
    objects hold no character that JSON escapes. *)
Definition quote (s : string) : string := Js.dquote +:+ s +:+ Js.dquote.

(** [JSON.stringify(v, null, 2)], for a value that starts at the
    indentation [indent]: an empty array or object is written closed;
    otherwise every element or member has a line of its own, two spaces
    further in. *)
Fixpoint stringify (indent : string) (v : Value) : string :=
  let inner := indent +:+ "  " in
  let lines (rendered : list string) (opening closing : string) :=
    opening +:+ Js.nl +:+ inner
    +:+ Js.join ("," +:+ Js.nl +:+ inner) rendered
    +:+ Js.nl +:+ indent +:+ closing in
  match v with
  | Str s => quote s
  | Num n => NilZero.string_of_uint (N.to_uint n)
  | Bool b => if b then "true" else "false"
  | Arr [] => "[]"
  | Arr items => lines (List.map (stringify inner) items) "[" "]"
  | Obj [] => "{}"
  | Obj members =>
      lines (List.map (fun member => quote (fst member) +:+ ": "
                                     +:+ stringify inner (snd member))
                      members) "{" "}"
  end.

End Json.

Definition tsConfig : Json.Value :=
  Json.Obj
    [ ("compilerOptions",
       Json.Obj
         [ ("target", Json.Str "ES2020");
           ("module", Json.Str "commonjs");
           ("lib", Json.Arr [Json.Str "es2020"; Json.Str "DOM"]);
           ("strict", Json.Bool true);
           ("esModuleInterop", Json.Bool true);
           ("skipLibCheck", Json.Bool true);
           ("forceConsistentCasingInFileNames", Json.Bool true);
           ("moduleResolution", Json.Str "node");
           ("resolveJsonModule", Json.Bool true);
           ("allowJs", Json.Bool true);
           ("types", Json.Arr [Json.Str "node"; Json.Str "mocha";
                               Json.Str "selenium-webdriver"]);
           ("outDir", Json.Str "./dist") ]);
      ("include", Json.Arr [Json.Str "tests/**/*"]);
      ("exclude", Json.Arr [Json.Str "node_modules"]) ].

Definition mochaConfig : Json.Value :=
  Json.Obj
    [ ("extension", Json.Arr [Json.Str "ts"]);
      ("spec", Json.Str "tests/**/*.spec.ts");
      ("require", Json.Str "ts-node/register");
      ("timeout", Json.Num 60000%N) ].

(** ** The script and the listing, in the specification's words

    Two descriptions written from the specification alone.  They use
    the data of the service and of the walk and the string functions of
    JavaScript, and none of the agent's own functions: the theorems on
    the script and on the scan compare what the agent computes with
    them. *)

Module Synthesizer.

(** The content parts the service returned: those of the first
    candidate, and none when anything on the way to them is missing. *)
Definition returned_parts (response : option Genai.Response)
  : list Genai.Part :=
  default []
    (r ← response; candidates ← Genai.candidates r;
     candidate ← head candidates; content ← Genai.content candidate;
     Genai.parts content).

(** What a part is: a plain text, executable code, or neither.  A part
    with a text that is not empty is a plain-text part. *)
Inductive Kind :=
  | PlainText (text : string)
  | Code (code : string)
  | Neither.

Definition kind (part : Genai.Part) : Kind :=
  match Genai.text part with
  | Some (String c t) => PlainText (String c t)
  | _ =>
      match Genai.executableCode part with
      | Some {| Genai.code := Some (String c t) |} => Code (String c t)
      | _ => Neither
      end
  end.

(** The lines of a text that hold no code-fence delimiter. *)
Definition without_fence_lines (text : string) : list string :=
  List.filter (fun line => negb (Js.includes line "```")) (Js.split_lines text).

(** What a part adds to the script, ended by a line feed. *)
Definition piece (part : Genai.Part) : string :=
  match kind part with
  | PlainText text => Js.join Js.nl (without_fence_lines text) +:+ Js.nl
  | Code code => code +:+ Js.nl
  | Neither => EmptyString
  end.

Definition provenance_comment : string :=
  "// *** This code is generated by AI Agent ***".

Definition script (response : option Genai.Response) : string :=
  provenance_comment +:+ Js.nl +:+ Js.nl
  +:+ Js.concat_all (List.map piece (returned_parts response)).

End Synthesizer.

Module Manifest.

(** The names of the dependency and version-control directories. *)
Definition left_out (name : string) : bool :=
  bool_decide (name ∈ ["node_modules"; ".git"]).

(** The names of source files. *)
Definition source_name (name : string) : bool :=
  existsb (Js.endsWith name) [".ts"; ".js"].

(** The line the listing has for an entry met by the walk: none for an
    entry below a directory that is left out; otherwise the marked path
    of a directory that is not left out itself, or of a source file. *)
Definition line (x : Walked) : option string :=
  if existsb left_out (above x) then None
  else match entry x with
       | Dir name _ => if left_out name then None else Some ("📁 " +:+ full_path x)
       | File name => if source_name name then Some ("📄 " +:+ full_path x) else None
       | Special _ => None
       end.

(** The directory read for an entry: the entry itself when it is a
    listed directory. *)
Definition read (x : Walked) : option string :=
  if existsb left_out (above x) then None
  else match entry x with
       | Dir name _ => if left_out name then None else Some (full_path x)
       | _ => None
       end.

Definition listing (root : string) (project : list Dirent) : string :=
  Js.join Js.nl (omap line (walk root project)).

End Manifest.

(** ** A project, replies and worlds to run the agent on *)

Module Scenario.

Definition testdir : string := "/repo/tests".

(** A project with sources inside and outside the excluded directories. *)
Definition project : list Dirent :=
  [ Dir "node_modules" [File "index.ts"; Dir "lib" [File "util.js"]];
    Dir "src" [File "agent.ts"; File "README.md"; Special "latest";
               Dir ".git" [File "hook.js"]];
    File "run.js";
    Dir ".git" [File "config.js"] ].

Definition context : string :=
  "📁 /repo/src" +:+ Js.nl +:+ "📄 /repo/src/agent.ts" +:+ Js.nl +:+ "📄 /repo/run.js".

Definition prompts : gmap string string :=
  <["PLAYWRIGHT" := playwrightPrompt testdir context]>
  (<["TESTCAFE" := testcafePrompt testdir context]>
   (<["SELENIUM" := seleniumPrompt testdir context]> ∅)).

(** A reply with one fenced block of code. *)
Definition fenced_reply : option Genai.Response :=
  Some {| Genai.candidates :=
            Some [ {| Genai.content :=
                        Some {| Genai.parts :=
                                  Some [ {| Genai.text :=
                                              Some ("```ts" +:+ Js.nl
                                                    +:+ "test('x', async () => {});"
                                                    +:+ Js.nl +:+ "```");
                                            Genai.executableCode := None |} ] |} |} ] |}.

Definition timeout : JsError :=
  mkError "Command failed: npx playwright test" (Some "Timeout 30000ms exceeded").

Definition quota : JsError := mkError "429 Too Many Requests" None.

(** The first execution times out, the second passes. *)
Definition second_try : World :=
  mkWorld [] ∅ (fun _ => Normal fenced_reply)
    (fun n => match n with
              | 0 => Throw timeout
              | _ => Normal {| stdout := "1 passed"; exec_stderr := EmptyString |}
              end).

(** Every execution times out. *)
Definition all_fail : World :=
  mkWorld [] ∅ (fun _ => Normal fenced_reply) (fun _ => Throw timeout).

(** The service refuses the first request. *)
Definition refused : World :=
  mkWorld [] ∅
    (fun n => match n with 0 => Throw quota | _ => Normal fenced_reply end)
    (fun _ => Throw timeout).


(** The service answers the first request and refuses the second. *)
Definition refused_later : World :=
  mkWorld [] ∅
    (fun n => match n with 0 => Normal fenced_reply | _ => Throw quota end)
    (fun _ => Throw timeout).

(** A reply with two candidates.  The first has a text with prose and a
    fenced block, a part of executable code and a part with neither;
    the second is never read. *)
Definition mixed_reply : option Genai.Response :=
  Some {| Genai.candidates :=
            Some [ {| Genai.content :=
                        Some {| Genai.parts :=
                                  Some [ {| Genai.text :=
                                              Some ("Here is the test:" +:+ Js.nl
                                                    +:+ "```js" +:+ Js.nl
                                                    +:+ "const assert = require('assert');"
                                                    +:+ Js.nl +:+ "```");
                                            Genai.executableCode := None |};
                                         {| Genai.text := None;
                                            Genai.executableCode :=
                                              Some {| Genai.code :=
                                                        Some "console.log('step 1');" |} |};
                                         {| Genai.text := Some EmptyString;
                                            Genai.executableCode :=
                                              Some {| Genai.code := None |} |} ] |} |};
                   {| Genai.content :=
                        Some {| Genai.parts :=
                                  Some [ {| Genai.text := Some "never read";
                                            Genai.executableCode := None |} ] |} |} ] |}.

(** The first script fails; the second, a different one, passes. *)
Definition improving : World :=
  mkWorld [] ∅
    (fun n => match n with 0 => Normal fenced_reply | _ => Normal mixed_reply end)
    (fun n => match n with
              | 0 => Throw timeout
              | _ => Normal {| stdout := "1 passed"; exec_stderr := EmptyString |}
              end).

End Scenario.

(** ** The agent's functions *)

Section Agent.

(** The absolute path of the [tests] directory beside the module's. *)
Variable TESTDIR : string.

(** The module constant [basePrompts], as loaded. *)
Variable basePrompts : gmap string string.

(** The [promptText] of [generateTestScript]. *)
Definition promptText (framework errorContext : string) : option string :=
  let basePrompt := basePrompts !! framework in
  if Js.truthy errorContext
  then Some (Js.interpolate basePrompt +:+ Js.nl +:+ Js.nl
             +:+ "The previous attempt failed with the following error:"
             +:+ Js.nl +:+ errorContext +:+ Js.nl
             +:+ "Please correct the code and regenerate.")
  else basePrompt.

(** The argument of [ai.models.generateContent]. *)
Definition request (promptText : option string) : Genai.Request :=
  {| Genai.model := "gemini-2.0-flash";
     Genai.contents :=
       [ {| Genai.role := "user"; Genai.texts := [promptText] |};
         {| Genai.role := "user"; Genai.texts := [Some userPrompt] |} ];
     Genai.codeExecution := true |}.

(** [response?.candidates?.[0]?.content?.parts || []]. *)
Definition response_parts (response : option Genai.Response) : list Genai.Part :=
  match response with
  | Some r =>
      match Genai.candidates r with
      | Some (candidate :: _) =>
          match Genai.content candidate with
          | Some c =>
              match Genai.parts c with
              | Some ps => ps
              | None => []
              end
          | None => []
          end
      | _ => []
      end
  | None => []
  end.

Definition fence : string := "```".

(** [part.text.split(nl).filter(line => !line.includes(fence)).join(nl)]. *)
Definition cleaned (text : string) : string :=
  Js.join Js.nl
    (List.filter (fun line => negb (Js.includes line fence)) (Js.split_lines text)).

(** [part.executableCode?.code]. *)
Definition part_code (part : Genai.Part) : option string :=
  match Genai.executableCode part with
  | Some ec => Genai.code ec
  | None => None
  end.

(** The callback of [parts.forEach], on the [output] it appends to. *)
Definition append_part (output : string) (part : Genai.Part) : string :=
  if Js.truthy_opt (Genai.text part)
  then output +:+ cleaned (default EmptyString (Genai.text part)) +:+ Js.nl
  else if Js.truthy_opt (part_code part)
  then output +:+ default EmptyString (part_code part) +:+ Js.nl
  else output.

Definition provenance : string := "// *** This code is generated by AI Agent ***".

(** The script built from a response: the [return] of
    [generateTestScript]. *)
Definition script_of (response : option Genai.Response) : string :=
  let parts := response_parts response in
  let output := fold_left append_part parts EmptyString in
  provenance +:+ Js.nl +:+ Js.nl +:+ output.

Definition generateTestScript (framework errorContext : string) : M string :=
  response <- ai_models_generateContent (request (promptText framework errorContext)) ;;
  ret (script_of response).

(** The [switch] of [executeTestScript]. *)
Definition run_command (framework filePath : string) : M string :=
  let absolutePath := Path.resolve TESTDIR (Path.basename filePath) in
  if String.eqb framework "PLAYWRIGHT"
  then ret ("npx playwright test " +:+ Path.basename filePath)
  else if String.eqb framework "TESTCAFE"
  then ret ("npx testcafe chrome " +:+ Path.basename filePath)
  else if String.eqb framework "SELENIUM"
  then ret ("npx mocha " +:+ Js.dquote +:+ absolutePath +:+ Js.dquote)
  else throw (mkError ("Unknown framework: " +:+ framework) None).

(** [err.stderr || err.message]. *)
Definition error_output (err : JsError) : string :=
  if Js.truthy_opt (stderr err)
  then default EmptyString (stderr err)
  else message err.

Definition executeTestScript (framework filePath : string) : M ExecResult :=
  try_catch
    (command <- run_command framework filePath ;;
     out <- execPromise ("cd " +:+ TESTDIR +:+ " && " +:+ command) ;;
     ret {| success := true; output := stdout out |})
    (fun err => ret {| success := false; output := error_output err |}).

(** The variables of [generateAndDebug] that the loop updates. *)
Record LoopVars := mkVars {
    attempt : nat;
    succeeded : bool;
    lastError : string
  }.

(** One pass through the body of the [while], up to [attempt++]: the new
    values of [success] and [lastError]. *)
Definition attempt_body (framework outputPath : string) (v : LoopVars)
  : M (bool * string) :=
  console_log ("🧠 Executing [" +:+ framework +:+ "] test:: Attempt #"
               +:+ Js.of_nat (attempt v + 1) +:+ "...") ;;
  code <- generateTestScript framework (lastError v) ;;
  writeFileSync outputPath code ;;
  result <- executeTestScript framework outputPath ;;
  (if success result
   then console_log ("✅ [" +:+ framework +:+ "] Test script executed successfully.") ;;
        console_log (output result)
   else console_warn ("❌ [" +:+ framework +:+ "] Script failed on attempt "
                      +:+ Js.of_nat (attempt v + 1) +:+ ". Error:" +:+ Js.nl
                      +:+ output result)) ;;
  ret (success result, output result).

(** [attempt < MAX_ATTEMPTS && !success]. *)
Definition loop_condition (v : LoopVars) : bool :=
  (attempt v <? MAX_ATTEMPTS) && negb (succeeded v).

(** A value together with the equation that it is the value of [a]. *)
Definition inspect {A} (a : A) : {b : A | a = b} := exist _ a eq_refl.

(** The [while] loop.  It is total: each pass brings [attempt] one
    closer to [MAX_ATTEMPTS]. *)
Equations? while_loop (framework outputPath : string) (v : LoopVars) (w : World)
  : Completion LoopVars * World by wf (MAX_ATTEMPTS - attempt v) lt :=
  while_loop framework outputPath v w with inspect (loop_condition v) := {
    | exist _ true Hcond =>
        match attempt_body framework outputPath v w with
        | (Normal (success, lastError), w') =>
            while_loop framework outputPath
              (mkVars (S (attempt v)) success lastError) w'
        | (Throw e, w') => (Throw e, w')
        end
    | exist _ false _ => (Normal v, w) }.
Proof.
  unfold loop_condition in Hcond. simpl.
  apply andb_prop in Hcond as [Hlt _].
  apply Nat.ltb_lt in Hlt. unfold MAX_ATTEMPTS in *. lia.
Qed.

Definition generateAndDebug (framework : string) : M unit :=
  outputPath <- Path.join_opt TESTDIR (OUTPUT_FILES !! framework) ;;
  console_log (Js.nl +:+ "🔧 Generating tests for " +:+ framework +:+ "...") ;;
  v <- while_loop framework outputPath (mkVars 0 false EmptyString) ;;
  if negb (succeeded v)
  then console_error ("💥 [" +:+ framework +:+ "] All " +:+ Js.of_nat MAX_ATTEMPTS
                      +:+ " attempts failed. Last error:" +:+ Js.nl +:+ lastError v)
  else ret tt.

Definition generateAll : M unit :=
  generateAndDebug "PLAYWRIGHT" ;;
  generateAndDebug "TESTCAFE" ;;
  generateAndDebug "SELENIUM".

(** How [console.error] renders an error object passed as an argument
    (Node's formatting of objects, which is not part of the module). *)
Variable show_error : JsError -> string.

(** The body of the loop of [installDependencies], for one entry. *)
Definition install_entry (entry : string * list string) : M unit :=
  let framework := fst entry in
  let deps := snd entry in
  try_catch
    (console_log ("Installing " +:+ framework +:+ " dependencies...") ;;
     execPromise ("npm install -D " +:+ Js.join " " deps) ;;
     ret tt)
    (fun error =>
       console_error ("Failed to install " +:+ framework +:+ " dependencies:"
                      +:+ " " +:+ show_error error)).

Definition installDependencies : M unit :=
  console_log "📦 Installing required dependencies..." ;;
  for_of dependencies install_entry.

Definition createTsConfig : M unit :=
  let tsConfigPath := Path.join_up TESTDIR "tsconfig.json" in
  found <- existsSync tsConfigPath ;;
  if negb found
  then writeFileSync tsConfigPath (Json.stringify EmptyString tsConfig) ;;
       console_log "Created tsconfig.json"
  else ret tt.

Definition createMochaConfig : M unit :=
  let mochaConfigPath := Path.join_up TESTDIR ".mocharc.json" in
  found <- existsSync mochaConfigPath ;;
  if negb found
  then writeFileSync mochaConfigPath (Json.stringify EmptyString mochaConfig) ;;
       console_log "Created .mocharc.json"
  else ret tt.

(** The main execution at the end of the module. *)
Definition main : M unit :=
  installDependencies ;;
  createTsConfig ;;
  createMochaConfig ;;
  generateAll.

(** *** The script, as the specification words it

    The parts are taken in response order.  A plain-text part gives its
    lines without those that contain the fence; an executable-code part
    gives its code as it is; any other part gives nothing.  What the
    parts give is concatenated, each piece ended by a line feed, after
    the provenance comment and an empty line. *)

Definition fence_free (line : string) : bool := negb (Js.includes line fence).

Definition kept_lines (text : string) : list string :=
  List.filter fence_free (Js.split_lines text).

Definition retained (part : Genai.Part) : option string :=
  match Genai.text part with
  | Some (String c t) => Some (Js.join Js.nl (kept_lines (String c t)))
  | _ =>
      match part_code part with
      | Some (String c t) => Some (String c t)
      | _ => None
      end
  end.


(** The frameworks [executeTestScript] has a command for. *)
Definition known (framework : string) : bool :=
  String.eqb framework "PLAYWRIGHT" || String.eqb framework "TESTCAFE"
  || String.eqb framework "SELENIUM".

(** The world after further events and with the given files. *)
Definition after (w : World) (events : list Event) (fs : gmap string string)
  : World :=
  mkWorld (trace w ++ events) fs (ai_reply w) (shell_reply w).

(** The events of one pass through the loop. *)
Definition attempt_log (framework : string) (n : nat) : Event :=
  EvConsole Log ("🧠 Executing [" +:+ framework +:+ "] test:: Attempt #"
                 +:+ Js.of_nat (n + 1) +:+ "...").

Definition generation_event (framework errorContext : string) : Event :=
  EvGenerateContent (request (promptText framework errorContext)).

Definition success_log (framework : string) : Event :=
  EvConsole Log ("✅ [" +:+ framework +:+ "] Test script executed successfully.").

Definition failure_log (framework : string) (n : nat) (error : string) : Event :=
  EvConsole Warn ("❌ [" +:+ framework +:+ "] Script failed on attempt "
                  +:+ Js.of_nat (n + 1) +:+ ". Error:" +:+ Js.nl +:+ error).

(** The events that open and close a run of [generateAndDebug]. *)
Definition start_log (framework : string) : Event :=
  EvConsole Log (Js.nl +:+ "🔧 Generating tests for " +:+ framework +:+ "...").

Definition exhausted_log (framework error : string) : Event :=
  EvConsole Error ("💥 [" +:+ framework +:+ "] All " +:+ Js.of_nat MAX_ATTEMPTS
                   +:+ " attempts failed. Last error:" +:+ Js.nl +:+ error).

(** From the next request and the next command on, [MAX_ATTEMPTS]
    requests are answered and [MAX_ATTEMPTS] commands fail: the framework
    that runs next uses up its attempts. *)
Definition exhausts (w : World) : Prop :=
  (forall j, j < MAX_ATTEMPTS ->
             exists r, ai_reply w (count is_generate (trace w) + j) = Normal r)
  /\ (forall j, j < MAX_ATTEMPTS ->
                exists err, shell_reply w (count is_exec (trace w) + j) = Throw err).

(** The events of a pass whose execution fails with [err]. *)
Definition failed_attempt (framework outputPath command : string) (n : nat)
    (errorContext : string) (response : option Genai.Response) (err : JsError)
  : list Event :=
  [ attempt_log framework n;
    generation_event framework errorContext;
    EvWriteFile outputPath (script_of response);
    EvExec ("cd " +:+ TESTDIR +:+ " && " +:+ command);
    failure_log framework n (error_output err) ].

(** A completion that is a thrown error. *)
Definition rejected {A} (c : Completion A) : bool :=
  match c with
  | Normal _ => false
  | Throw _ => true
  end.

(** How many of the [n] commands from position [from] on fail. *)
Definition failing_commands (w : World) (from n : nat) : nat :=
  length (List.filter (fun j => rejected (shell_reply w (from + j))) (seq 0 n)).

(** The command that installs the packages of an entry. *)
Definition install_command (entry : string * list string) : Event :=
  EvExec ("npm install -D " +:+ Js.join " " (snd entry)).

(** The positions of the next request and of the next command. *)
Definition requests (w : World) : nat := count is_generate (trace w).
Definition commands (w : World) : nat := count is_exec (trace w).

(** ** Strings *)

Lemma append_nil_l (b : string) : EmptyString +:+ b = b.
Proof. reflexivity. Qed.

Lemma append_cons (c : ascii) (a b : string) :
  String c a +:+ b = String c (a +:+ b).
Proof. reflexivity. Qed.

Ltac unfold_append := rewrite ?append_cons, ?append_nil_l.

Lemma append_assoc (a b c : string) : (a +:+ b) +:+ c = a +:+ (b +:+ c).
Proof.
  induction a as [|x a IH]; unfold_append; [reflexivity | by rewrite IH].
Qed.

Lemma append_empty_r (a : string) : a +:+ EmptyString = a.
Proof.
  induction a as [|x a IH]; unfold_append; [reflexivity | by rewrite IH].
Qed.

Lemma prefix_append (e b : string) : String.prefix e (e +:+ b) = true.
Proof.
  induction e as [|c e IH]; unfold_append; simpl.
  - by destruct b.
  - destruct (ascii_dec c c); [exact IH | congruence].
Qed.

Lemma includes_prefix (s sub : string) :
  String.prefix sub s = true -> Js.includes s sub = true.
Proof. intros H. destruct s; cbn [Js.includes]; rewrite H; reflexivity. Qed.

Lemma includes_append (a e b : string) : Js.includes (a +:+ e +:+ b) e = true.
Proof.
  induction a as [|c a IH]; unfold_append.
  - apply includes_prefix, prefix_append.
  - cbn [Js.includes]. rewrite IH. apply orb_true_r.
Qed.

Lemma truthy_nonempty (s : string) : Js.truthy s = true <-> s <> EmptyString.
Proof. unfold Js.truthy. by rewrite negb_true_iff, String.eqb_neq. Qed.

Lemma split_lines_nonempty (s : string) : Js.split_lines s <> [].
Proof.
  induction s as [|c s IH]; simpl; [congruence|].
  destruct (Ascii.eqb c "010"); [congruence|].
  destruct (Js.split_lines s); congruence.
Qed.

Lemma split_lines_single (s : string) :
  Forall (fun l => Js.single_line l = true) (Js.split_lines s).
Proof.
  induction s as [|c s IH]; simpl.
  - by constructor.
  - destruct (Ascii.eqb c "010") eqn:Hc.
    + by constructor.
    + destruct (Js.split_lines s) as [|l ls].
      * constructor; [simpl; by rewrite Hc | constructor].
      * inversion IH; subst. constructor; [simpl; by rewrite Hc | assumption].
Qed.

Lemma split_lines_one (s : string) :
  Js.single_line s = true -> Js.split_lines s = [s].
Proof.
  induction s as [|c s IH]; simpl; [reflexivity|].
  intros [Hc Hs]%andb_prop. apply negb_true_iff in Hc.
  rewrite Hc, (IH Hs). reflexivity.
Qed.

Lemma split_lines_first (s rest : string) :
  Js.single_line s = true ->
  Js.split_lines (s +:+ Js.nl +:+ rest) = s :: Js.split_lines rest.
Proof.
  induction s as [|c s IH]; unfold_append; [reflexivity|].
  simpl. intros [Hc Hs]%andb_prop. apply negb_true_iff in Hc.
  rewrite Hc, (IH Hs). reflexivity.
Qed.

Lemma split_lines_join (ls : list string) :
  ls <> [] -> Forall (fun l => Js.single_line l = true) ls ->
  Js.split_lines (Js.join Js.nl ls) = ls.
Proof.
  induction ls as [|x ls IH]; [congruence|].
  intros _ Hall. inversion Hall as [|? ? Hx Hls]; subst.
  destruct ls as [|y ls].
  - simpl. by apply split_lines_one.
  - change (Js.join Js.nl (x :: y :: ls))
      with (x +:+ Js.nl +:+ Js.join Js.nl (y :: ls)).
    rewrite split_lines_first by assumption.
    rewrite IH; [reflexivity | congruence | assumption].
Qed.

Lemma kept_lines_fence_free (text : string) :
  Forall (fun l => Js.includes l fence = false) (kept_lines text).
Proof.
  unfold kept_lines. apply List.Forall_forall. intros l Hl.
  apply List.filter_In in Hl as [_ Hl]. unfold fence_free in Hl.
  by apply negb_true_iff in Hl.
Qed.

Lemma kept_lines_single (text : string) :
  Forall (fun l => Js.single_line l = true) (kept_lines text).
Proof.
  unfold kept_lines. pose proof (split_lines_single text) as H.
  rewrite List.Forall_forall in *. intros l Hl.
  apply List.filter_In in Hl as [Hl _]. by apply H.
Qed.

(** ** The synthesised script *)

Lemma append_part_retained (output : string) (part : Genai.Part) :
  append_part output part =
    match retained part with
    | Some piece => output +:+ piece +:+ Js.nl
    | None => output
    end.
Proof.
  unfold append_part, retained, cleaned, kept_lines, fence_free.
  destruct (Genai.text part) as [[|c t]|]; simpl;
    destruct (part_code part) as [[|c' t']|]; reflexivity.
Qed.

Lemma fold_append_part (parts : list Genai.Part) (output : string) :
  fold_left append_part parts output =
    output +:+ Js.concat_all
                 (List.map (fun piece => piece +:+ Js.nl) (omap retained parts)).
Proof.
  revert output. induction parts as [|part parts IH]; intros output.
  - simpl. by rewrite append_empty_r.
  - cbn [fold_left]. rewrite IH, append_part_retained.
    cbn [omap list_omap]. destruct (retained part) as [piece|]; [|reflexivity].
    cbn [List.map Js.concat_all fold_right]. by rewrite !append_assoc.
Qed.

(** ** Counting events *)

Lemma count_app (p : Event -> bool) (t1 t2 : list Event) :
  count p (t1 ++ t2) = count p t1 + count p t2.
Proof. unfold count. by rewrite List.filter_app, length_app. Qed.

Lemma count_nil (p : Event -> bool) : count p [] = 0.
Proof. reflexivity. Qed.

Lemma count_cons (p : Event -> bool) (e : Event) (t : list Event) :
  count p (e :: t) = (if p e then 1 else 0) + count p t.
Proof. unfold count. simpl. by destruct (p e). Qed.

(** ** Running a script *)

Lemma known_command (framework filePath : string) :
  known framework = true ->
  exists command, run_command framework filePath = ret command.
Proof.
  unfold known, run_command. intros H.
  destruct (String.eqb framework "PLAYWRIGHT"); [by eexists|].
  destruct (String.eqb framework "TESTCAFE"); [by eexists|].
  destruct (String.eqb framework "SELENIUM"); [by eexists|].
  discriminate.
Qed.

Lemma unknown_command (framework filePath : string) :
  known framework = false ->
  run_command framework filePath
  = throw (mkError ("Unknown framework: " +:+ framework) None).
Proof.
  unfold known, run_command. intros H.
  destruct (String.eqb framework "PLAYWRIGHT"); [discriminate|].
  destruct (String.eqb framework "TESTCAFE"); [discriminate|].
  destruct (String.eqb framework "SELENIUM"); [discriminate|].
  reflexivity.
Qed.

Lemma error_output_cases (err : JsError) :
  error_output err =
    match stderr err with
    | Some (String c s) => String c s
    | _ => message err
    end.
Proof. unfold error_output. by destruct (stderr err) as [[|c s]|]. Qed.

(** What [executeTestScript] returns and does, when a command exists. *)
Lemma executeTestScript_known (framework filePath command : string) (w : World) :
  run_command framework filePath = ret command ->
  executeTestScript framework filePath w =
    (Normal match shell_reply w (commands w) with
            | Normal out => {| success := true; output := stdout out |}
            | Throw err => {| success := false; output := error_output err |}
            end,
     after w [EvExec ("cd " +:+ TESTDIR +:+ " && " +:+ command)] (files w)).
Proof.
  intros Hc. unfold executeTestScript, try_catch, bind. rewrite Hc.
  unfold ret, execPromise, after, commands. simpl.
  by destruct (shell_reply w (count is_exec (trace w))).
Qed.

Lemma executeTestScript_unknown (framework filePath : string) (w : World) :
  known framework = false ->
  executeTestScript framework filePath w =
    (Normal {| success := false; output := "Unknown framework: " +:+ framework |}, w).
Proof.
  intros Hk. unfold executeTestScript, try_catch, bind.
  rewrite (unknown_command _ _ Hk). reflexivity.
Qed.

Lemma output_file_known (framework name : string) :
  OUTPUT_FILES !! framework = Some name -> known framework = true.
Proof.
  unfold OUTPUT_FILES, known. intros H.
  destruct (String.eqb_spec framework "PLAYWRIGHT"); [done|].
  destruct (String.eqb_spec framework "TESTCAFE"); [done|].
  destruct (String.eqb_spec framework "SELENIUM"); [done|].
  rewrite !lookup_insert_ne, lookup_empty in H by done. discriminate.
Qed.

(** ** One pass through the loop *)

Ltac count_events :=
  repeat (rewrite ?count_app, ?count_cons, ?count_nil; simpl);
  rewrite ?Nat.add_0_r.

Lemma attempt_body_rejected (framework outputPath : string) (v : LoopVars)
    (w : World) (e : JsError) :
  ai_reply w (requests w) = Throw e ->
  attempt_body framework outputPath v w =
    (Throw e,
     after w [attempt_log framework (attempt v);
              generation_event framework (lastError v)] (files w)).
Proof.
  intros Hai. unfold attempt_body, generateTestScript, bind, console_log, emit,
    ai_models_generateContent. simpl.
  unfold requests in Hai. count_events. rewrite Hai.
  unfold after. by rewrite <- app_assoc.
Qed.

Lemma attempt_body_generated (framework outputPath command : string)
    (v : LoopVars) (w : World) (response : option Genai.Response) :
  run_command framework outputPath = ret command ->
  ai_reply w (requests w) = Normal response ->
  attempt_body framework outputPath v w =
    let code := script_of response in
    let common := [attempt_log framework (attempt v);
                   generation_event framework (lastError v);
                   EvWriteFile outputPath code;
                   EvExec ("cd " +:+ TESTDIR +:+ " && " +:+ command)] in
    match shell_reply w (commands w) with
    | Normal out =>
        (Normal (true, stdout out),
         after w (common ++ [success_log framework; EvConsole Log (stdout out)])
               (<[outputPath := code]> (files w)))
    | Throw err =>
        (Normal (false, error_output err),
         after w (common ++ [failure_log framework (attempt v) (error_output err)])
               (<[outputPath := code]> (files w)))
    end.
Proof.
  intros Hc Hai. unfold attempt_body, generateTestScript.
  unfold bind at 1. unfold console_log at 1, emit at 1.
  unfold bind at 1. unfold bind at 1. unfold ai_models_generateContent. simpl.
  unfold requests in Hai. count_events. rewrite Hai.
  unfold ret at 1. unfold bind at 1. unfold writeFileSync. simpl.
  unfold bind at 1. rewrite (executeTestScript_known _ _ _ _ Hc).
  unfold commands, after. simpl. count_events.
  destruct (shell_reply w (count is_exec (trace w))) as [out|err]; simpl;
    unfold bind, console_log, console_warn, emit, ret; simpl;
    rewrite <- ?app_assoc; reflexivity.
Qed.

Lemma attempt_body_unknown (framework outputPath : string) (v : LoopVars)
    (w : World) (response : option Genai.Response) :
  known framework = false ->
  ai_reply w (requests w) = Normal response ->
  attempt_body framework outputPath v w =
    let code := script_of response in
    let error := "Unknown framework: " +:+ framework in
    (Normal (false, error),
     after w [attempt_log framework (attempt v);
              generation_event framework (lastError v);
              EvWriteFile outputPath code;
              failure_log framework (attempt v) error]
           (<[outputPath := code]> (files w))).
Proof.
  intros Hk Hai. unfold attempt_body, generateTestScript.
  unfold bind at 1. unfold console_log at 1, emit at 1.
  unfold bind at 1. unfold bind at 1. unfold ai_models_generateContent. simpl.
  unfold requests in Hai. count_events. rewrite Hai.
  unfold ret at 1. unfold bind at 1. unfold writeFileSync. simpl.
  unfold bind at 1. rewrite (executeTestScript_unknown _ _ _ Hk). simpl.
  unfold bind, console_warn, emit, ret, after; simpl.
  rewrite <- ?app_assoc; reflexivity.
Qed.

Lemma after_nil (w : World) : after w [] (files w) = w.
Proof. destruct w. unfold after. simpl. by rewrite app_nil_r. Qed.

Lemma after_after (w : World) (t1 t2 : list Event) (f1 f2 : gmap string string) :
  after (after w t1 f1) t2 f2 = after w (t1 ++ t2) f2.
Proof. unfold after. simpl. by rewrite app_assoc. Qed.

Lemma requests_after (w : World) (t : list Event) (fs : gmap string string) :
  requests (after w t fs) = requests w + count is_generate t.
Proof. unfold requests, after. simpl. apply count_app. Qed.

Lemma commands_after (w : World) (t : list Event) (fs : gmap string string) :
  commands (after w t fs) = commands w + count is_exec t.
Proof. unfold commands, after. simpl. apply count_app. Qed.

(** Whatever the replies, one pass issues one request, and at most one
    write and one command. *)
Lemma attempt_body_events (framework outputPath : string) (v : LoopVars)
    (w : World) :
  exists new fs,
    snd (attempt_body framework outputPath v w) = after w new fs
    /\ count is_generate new = 1
    /\ count is_write new <= 1
    /\ count is_exec new <= 1.
Proof.
  destruct (ai_reply w (requests w)) as [response|e] eqn:Hai.
  - destruct (known framework) eqn:Hk.
    + destruct (known_command framework outputPath Hk) as [command Hc].
      rewrite (attempt_body_generated _ _ _ _ _ _ Hc Hai). simpl.
      destruct (shell_reply w (commands w)); simpl;
        eexists _, _; (split; [reflexivity|]); count_events; lia.
    + rewrite (attempt_body_unknown _ _ _ _ _ Hk Hai). simpl.
      eexists _, _; (split; [reflexivity|]); count_events; lia.
  - rewrite (attempt_body_rejected _ _ _ _ _ Hai). simpl.
    eexists _, _; (split; [reflexivity|]); count_events; lia.
Qed.

(** ** The loop *)

Lemma while_loop_continue (framework outputPath : string) (v : LoopVars)
    (w : World) :
  loop_condition v = true ->
  while_loop framework outputPath v w =
    match attempt_body framework outputPath v w with
    | (Normal (s, e), w') =>
        while_loop framework outputPath (mkVars (S (attempt v)) s e) w'
    | (Throw e, w') => (Throw e, w')
    end.
Proof.
  intros Hc. rewrite while_loop_equation_1.
  destruct (inspect (loop_condition v)) as [[] Hb]; [|congruence].
  rewrite while_loop_clause_1_equation_1.
  destruct (attempt_body framework outputPath v w) as [[[s e]|e] w'];
    reflexivity.
Qed.

Lemma while_loop_exit (framework outputPath : string) (v : LoopVars) (w : World) :
  loop_condition v = false ->
  while_loop framework outputPath v w = (Normal v, w).
Proof.
  intros Hc. rewrite while_loop_equation_1.
  destruct (inspect (loop_condition v)) as [[] Hb]; [congruence|].
  reflexivity.
Qed.

Lemma loop_condition_true (v : LoopVars) :
  loop_condition v = true <-> attempt v < MAX_ATTEMPTS /\ succeeded v = false.
Proof.
  unfold loop_condition.
  rewrite andb_true_iff, Nat.ltb_lt, negb_true_iff. reflexivity.
Qed.

Lemma loop_condition_succeeded (v : LoopVars) :
  succeeded v = true -> loop_condition v = false.
Proof. unfold loop_condition. intros ->. apply andb_false_r. Qed.

Lemma loop_condition_at_max (v : LoopVars) :
  MAX_ATTEMPTS <= attempt v -> loop_condition v = false.
Proof.
  intros H. apply not_true_is_false. rewrite loop_condition_true. lia.
Qed.

Lemma while_loop_bounded (framework outputPath : string) (n : nat) :
  forall (v : LoopVars) (w : World),
    MAX_ATTEMPTS - attempt v <= n ->
    exists c new fs,
      while_loop framework outputPath v w = (c, after w new fs)
      /\ count is_generate new <= n
      /\ count is_write new <= n
      /\ count is_exec new <= n.
Proof.
  induction n as [|n IH]; intros v w Hn.
  - rewrite while_loop_exit.
    + exists (Normal v), [], (files w). rewrite after_nil. count_events. split_and!; unfold MAX_ATTEMPTS in *; (reflexivity || lia).
    + apply not_true_is_false. rewrite loop_condition_true. lia.
  - destruct (loop_condition v) eqn:Hc.
    + rewrite (while_loop_continue _ _ _ _ Hc).
      destruct (attempt_body_events framework outputPath v w)
        as (new & fs & Hw & Hg & Hwr & He).
      destruct (attempt_body framework outputPath v w) as [[[s e]|e] w1];
        simpl in Hw; subst w1.
      * apply loop_condition_true in Hc as [Hlt _].
        destruct (IH (mkVars (S (attempt v)) s e) (after w new fs))
          as (c & new' & fs' & Hrun & Hg' & Hwr' & He'); [cbn [attempt]; lia|].
        rewrite Hrun, after_after. exists c, (new ++ new'), fs'.
        count_events. split_and!; [reflexivity | lia..].
      * exists (Throw e), new, fs. split_and!; [reflexivity | lia..].
    + rewrite (while_loop_exit _ _ _ _ Hc).
      exists (Normal v), [], (files w). rewrite after_nil. count_events.
      split_and!; [reflexivity | lia..].
Qed.

(** Every run of [generateAndDebug] extends the trace, by at most
    [MAX_ATTEMPTS] requests, writes and commands. *)
Lemma generateAndDebug_events (framework : string) (w : World) :
  exists (c : Completion unit) (new : list Event) (fs : gmap string string),
    generateAndDebug framework w = (c, after w new fs)
    /\ MAX_ATTEMPTS = 3
    /\ count is_generate new <= MAX_ATTEMPTS
    /\ count is_write new <= MAX_ATTEMPTS
    /\ count is_exec new <= MAX_ATTEMPTS.
Proof.
  unfold generateAndDebug.
  destruct (OUTPUT_FILES !! framework) as [name|]; unfold Path.join_opt.
  - unfold bind at 1, ret at 1. unfold bind at 1, console_log at 1, emit at 1.
    unfold bind at 1.
    match goal with |- context [while_loop ?f ?o ?v ?w0] =>
      destruct (while_loop_bounded f o MAX_ATTEMPTS v w0)
        as (c & new & fs & Hrun & Hg & Hwr & He); [cbn [attempt]; lia|];
      rewrite Hrun
    end.
    destruct c as [v|e].
    + destruct (succeeded v); simpl.
      * unfold ret. eexists (Normal tt), (_ :: new), fs.
        split; [unfold after; simpl; by rewrite <- app_assoc|].
        count_events. split_and!; unfold MAX_ATTEMPTS in *; (reflexivity || lia).
      * unfold console_error, emit, after. simpl.
        eexists (Normal tt), (_ :: new ++ [_]), fs.
        split; [by rewrite <- !app_assoc|].
        count_events. split_and!; unfold MAX_ATTEMPTS in *; (reflexivity || lia).
    + eexists (Throw e), (_ :: new), fs.
      split; [unfold after; simpl; by rewrite <- app_assoc|].
      count_events. split_and!; unfold MAX_ATTEMPTS in *; (reflexivity || lia).
  - unfold bind, throw. eexists _, [], (files w). rewrite after_nil.
    count_events. split_and!; unfold MAX_ATTEMPTS in *; (reflexivity || lia).
Qed.

(** C1.  Whatever the framework identifier and whatever the service and
    the shell reply, a run of [generateAndDebug] completes (it is a total
    function: the loop's measure [MAX_ATTEMPTS - attempt] decreases at
    each pass) having issued at most [MAX_ATTEMPTS] = 3 generation
    requests, at most 3 writes and at most 3 commands: at most three
    generate-write-execute attempts, never more. *)
Theorem generateAndDebug_bounded (framework : string) (w : World) :
  exists (c : Completion unit) (w' : World) (new : list Event),
    generateAndDebug framework w = (c, w')
    /\ trace w' = trace w ++ new
    /\ MAX_ATTEMPTS = 3
    /\ count is_generate new <= 3
    /\ count is_write new <= 3
    /\ count is_exec new <= 3.
Proof.
  destruct (generateAndDebug_events framework w)
    as (c & new & fs & Hrun & Hmax & Hg & Hw & He).
  exists c, (after w new fs), new. rewrite Hmax in *.
  split_and!; [exact Hrun | reflexivity | reflexivity | lia..].
Qed.

(** The loop when the first [k] executions fail and the next succeeds. *)
Lemma while_loop_succeeds (framework outputPath command : string) (k : nat) :
  forall (v : LoopVars) (w : World) (out : ExecOutput),
    run_command framework outputPath = ret command ->
    succeeded v = false ->
    attempt v + S k <= MAX_ATTEMPTS ->
    (forall j, j <= k -> exists r, ai_reply w (requests w + j) = Normal r) ->
    (forall j, j < k -> exists err, shell_reply w (commands w + j) = Throw err) ->
    shell_reply w (commands w + k) = Normal out ->
    exists new fs,
      while_loop framework outputPath v w =
        (Normal (mkVars (attempt v + S k) true (stdout out)),
         after w (new ++ [success_log framework; EvConsole Log (stdout out)]) fs)
      /\ count is_generate new = S k
      /\ count is_write new = S k
      /\ count is_exec new = S k.
Proof.
  induction k as [|k IH]; intros v w out Hcmd Hs Hle Hai Hsh Hok.
  - assert (Hc : loop_condition v = true)
      by (apply loop_condition_true; split; [lia | done]).
    rewrite (while_loop_continue _ _ _ _ Hc).
    destruct (Hai 0) as [r Hr]; [lia|]. rewrite Nat.add_0_r in Hr, Hok.
    rewrite (attempt_body_generated _ _ _ _ _ _ Hcmd Hr). cbn zeta.
    rewrite Hok.
    rewrite while_loop_exit by (by apply loop_condition_succeeded).
    eexists _, _. rewrite Nat.add_1_r. split; [reflexivity|].
    count_events. split_and!; reflexivity.
  - assert (Hc : loop_condition v = true)
      by (apply loop_condition_true; split; [lia | done]).
    rewrite (while_loop_continue _ _ _ _ Hc).
    destruct (Hai 0) as [r Hr]; [lia|]. rewrite Nat.add_0_r in Hr.
    destruct (Hsh 0) as [err Herr]; [lia|]. rewrite Nat.add_0_r in Herr.
    rewrite (attempt_body_generated _ _ _ _ _ _ Hcmd Hr). cbn zeta.
    rewrite Herr.
    match goal with |- context [while_loop _ _ ?v1 ?w1] =>
      destruct (IH v1 w1 out Hcmd) as (new & fs & Hrun & Hg & Hw & He)
    end.
    + reflexivity.
    + cbn [attempt]. lia.
    + intros j Hj. rewrite requests_after. count_events.
      destruct (Hai (S j)) as [r' Hr']; [lia|]. exists r'.
      cbn [ai_reply after]. rewrite <- Hr'. f_equal. lia.
    + intros j Hj. rewrite commands_after. count_events.
      destruct (Hsh (S j)) as [err' Herr']; [lia|]. exists err'.
      cbn [shell_reply after]. rewrite <- Herr'. f_equal. lia.
    + rewrite commands_after. count_events.
      cbn [shell_reply after]. rewrite <- Hok. f_equal. lia.
    + rewrite Hrun, after_after. cbn [attempt].
      replace (S (attempt v) + S k) with (attempt v + S (S k)) by lia.
      match goal with |- context [after w (?pre ++ new ++ _) fs] =>
        exists (pre ++ new), fs
      end.
      split; [by rewrite <- app_assoc|].
      count_events. rewrite Hg, Hw, He. split_and!; reflexivity.
Qed.

(** C2.  If the executions of attempts 1 to [k - 1] fail and that of
    attempt [k] succeeds ([k] at most [MAX_ATTEMPTS]), the loop stops
    there: [generateAndDebug] returns having issued exactly [k]
    generation requests, [k] writes and [k] commands, and its last two
    events report the success and the captured output.  With [k] = 2,
    exactly two attempts run and no third request is made. *)
Theorem success_stops_loop (framework name : string) (k : nat) (w : World)
    (out : ExecOutput) :
  OUTPUT_FILES !! framework = Some name ->
  1 <= k <= MAX_ATTEMPTS ->
  (forall j, j < k -> exists r, ai_reply w (requests w + j) = Normal r) ->
  (forall j, j + 1 < k ->
             exists err, shell_reply w (commands w + j) = Throw err) ->
  shell_reply w (commands w + (k - 1)) = Normal out ->
  exists events earlier fs,
    generateAndDebug framework w = (Normal tt, after w events fs)
    /\ events = earlier ++ [success_log framework; EvConsole Log (stdout out)]
    /\ count is_generate events = k
    /\ count is_write events = k
    /\ count is_exec events = k.
Proof.
  intros Hname [Hk1 Hk3] Hai Hsh Hok.
  destruct (known_command framework (Path.join TESTDIR name)
              (output_file_known _ _ Hname)) as [command Hcmd].
  unfold generateAndDebug. rewrite Hname. unfold Path.join_opt.
  unfold bind at 1, ret at 1. unfold bind at 1, console_log at 1, emit at 1.
  unfold bind at 1.
  destruct k as [|k]; [lia|]. replace (S k - 1) with k in Hok by lia.
  match goal with |- context [while_loop _ _ ?v1 ?w1] =>
    destruct (while_loop_succeeds framework (Path.join TESTDIR name) command
                k v1 w1 out Hcmd) as (new & fs & Hrun & Hg & Hw & He)
  end.
  - reflexivity.
  - cbn [attempt]. lia.
  - intros j Hj. destruct (Hai j) as [r Hr]; [lia|]. exists r.
    rewrite <- Hr. unfold requests. cbn [ai_reply trace]. count_events.
    reflexivity.
  - intros j Hj. destruct (Hsh j) as [err Herr]; [lia|]. exists err.
    rewrite <- Herr. unfold commands. cbn [shell_reply trace]. count_events.
    reflexivity.
  - rewrite <- Hok. unfold commands. cbn [shell_reply trace]. count_events.
    reflexivity.
  - rewrite Hrun. cbn [succeeded negb]. unfold ret.
    eexists _, (start_log framework :: new), fs. split; [|split].
    + unfold after. cbn [trace files ai_reply shell_reply].
      rewrite <- app_assoc. reflexivity.
    + reflexivity.
    + cbn [app]. count_events. rewrite Hg, Hw, He. split_and!; lia.
Qed.

(** ** The prompt *)

Lemma includes_skip (a s sub : string) :
  Js.includes s sub = true -> Js.includes (a +:+ s) sub = true.
Proof.
  intros H. induction a as [|c a IH]; unfold_append; [exact H|].
  cbn [Js.includes]. rewrite IH. apply orb_true_r.
Qed.

(** C3.  For a framework that has a base template and a non-empty
    prior error [e], the prompt is the template followed by the fixed
    sentence announcing the failure, [e] itself, unchanged, and the
    request to correct and regenerate; [e] occurs in it verbatim; it is
    the text the generation request carries.  Without a prior error the
    prompt is the template alone. *)
Theorem prompt_carries_error (framework base e : string) (w : World) :
  basePrompts !! framework = Some base ->
  e <> EmptyString ->
  let prompt :=
    base +:+ Js.nl +:+ Js.nl
    +:+ "The previous attempt failed with the following error:" +:+ Js.nl
    +:+ e +:+ Js.nl +:+ "Please correct the code and regenerate." in
  promptText framework e = Some prompt
  /\ Js.includes prompt e = true
  /\ promptText framework EmptyString = Some base
  /\ trace (snd (generateTestScript framework e w))
     = trace w ++ [EvGenerateContent (request (Some prompt))].
Proof.
  intros Hbase He prompt.
  assert (Hp : promptText framework e = Some prompt).
  { unfold promptText. rewrite Hbase.
    apply truthy_nonempty in He. rewrite He. reflexivity. }
  split_and!.
  - exact Hp.
  - unfold prompt. do 5 apply includes_skip.
    apply includes_prefix, prefix_append.
  - unfold promptText. rewrite Hbase. reflexivity.
  - unfold generateTestScript, bind, ai_models_generateContent. rewrite Hp.
    by destruct (ai_reply w (count is_generate (trace w))).
Qed.

(** ** The script *)

Lemma response_parts_returned (response : option Genai.Response) :
  response_parts response = Synthesizer.returned_parts response.
Proof.
  destruct response as [[[[|[[[[ps|]]|]] rest]|]]|]; reflexivity.
Qed.

Lemma retained_piece (part : Genai.Part) :
  Synthesizer.piece part
  = match retained part with
    | Some piece => piece +:+ Js.nl
    | None => EmptyString
    end.
Proof.
  unfold Synthesizer.piece, Synthesizer.kind, retained, part_code.
  destruct (Genai.text part) as [[|c t]|];
    destruct (Genai.executableCode part) as [[[[|c' t']|]]|]; reflexivity.
Qed.

Lemma concat_pieces (parts : list Genai.Part) :
  Js.concat_all (List.map (fun piece => piece +:+ Js.nl) (omap retained parts))
  = Js.concat_all (List.map Synthesizer.piece parts).
Proof.
  induction parts as [|part parts IH]; [reflexivity|].
  cbn [omap list_omap List.map]. fold (omap retained parts).
  rewrite retained_piece.
  destruct (retained part) as [piece|]; cbn [List.map Js.concat_all fold_right].
  - fold (Js.concat_all
            (List.map (fun piece => piece +:+ Js.nl) (omap retained parts))).
    fold (Js.concat_all (List.map Synthesizer.piece parts)).
    by rewrite IH.
  - fold (Js.concat_all (List.map Synthesizer.piece parts)).
    by rewrite append_nil_l.
Qed.

Lemma script_of_synthesized (response : option Genai.Response) :
  script_of response = Synthesizer.script response.
Proof.
  unfold script_of, Synthesizer.script. cbn zeta.
  rewrite fold_append_part, append_nil_l, concat_pieces.
  by rewrite response_parts_returned.
Qed.

(** C7.  The script [generateTestScript] builds from a response is the
    script of the specification: the provenance comment, an empty line,
    and then, for the parts of the first candidate in response order,
    what each part gives, ended by a line feed: a plain-text part its
    lines without those that contain the fence, joined by line feeds; an
    executable-code part its code as it is; any other part nothing.  The
    provenance comment is the first line of every script, and this is
    the script [generateTestScript] returns for an answered request. *)
Theorem script_follows_parts (response : option Genai.Response) :
  script_of response = Synthesizer.script response
  /\ hd EmptyString (Js.split_lines (script_of response))
     = "// *** This code is generated by AI Agent ***"
  /\ forall framework errorContext w,
       ai_reply w (requests w) = Normal response ->
       fst (generateTestScript framework errorContext w)
       = Normal (Synthesizer.script response).
Proof.
  split_and!.
  - apply script_of_synthesized.
  - unfold script_of. cbn zeta.
    rewrite split_lines_first by reflexivity. reflexivity.
  - intros framework errorContext w Hai.
    unfold generateTestScript, bind, ai_models_generateContent, ret.
    unfold requests in Hai. rewrite Hai. cbn [fst].
    by rewrite script_of_synthesized.
Qed.

(** C9.  [executeTestScript] never throws.  It reports success exactly
    when a command was run and exited with status zero, and then its
    output is the captured standard output; otherwise it reports failure
    with the captured standard error when there is any, else with the
    message of the error (for a framework without a command, the message
    saying so, and no command is run). *)
Theorem executeTestScript_result (framework filePath : string) (w : World) :
  exists (r : ExecResult) (w' : World),
    executeTestScript framework filePath w = (Normal r, w')
    /\ (success r = true <->
          known framework = true
          /\ exists out, shell_reply w (commands w) = Normal out)
    /\ r = (if known framework then
              match shell_reply w (commands w) with
              | Normal out => {| success := true; output := stdout out |}
              | Throw err =>
                  {| success := false;
                     output := match stderr err with
                               | Some (String c s) => String c s
                               | _ => message err
                               end |}
              end
            else {| success := false;
                    output := "Unknown framework: " +:+ framework |})
    /\ commands w' = commands w + (if known framework then 1 else 0)
    /\ files w' = files w.
Proof.
  destruct (known framework) eqn:Hk.
  - destruct (known_command framework filePath Hk) as [command Hc].
    rewrite (executeTestScript_known _ _ _ _ Hc).
    eexists _, _. split; [reflexivity|].
    rewrite commands_after. count_events.
    destruct (shell_reply w (commands w)) as [out|err]; cbn [success].
    + split_and!; try reflexivity. split; [eauto | done].
    + rewrite error_output_cases. split_and!; try reflexivity.
      split; [done | by intros [_ [out Hout]]].
  - rewrite (executeTestScript_unknown _ _ _ Hk).
    eexists _, _. split; [reflexivity|]. cbn [success].
    split_and!; try reflexivity; [|lia].
    split; [done | by intros [? _]].
Qed.



(** ** The output file *)

Lemma attempt_body_returns (framework outputPath : string) (v : LoopVars)
    (w w1 : World) (s : bool) (e : string) :
  attempt_body framework outputPath v w = (Normal (s, e), w1) ->
  exists response new,
    ai_reply w (requests w) = Normal response
    /\ w1 = after w new (<[outputPath := script_of response]> (files w))
    /\ count is_generate new = 1.
Proof.
  destruct (ai_reply w (requests w)) as [response|err] eqn:Hai.
  - destruct (known framework) eqn:Hk.
    + destruct (known_command framework outputPath Hk) as [command Hc].
      rewrite (attempt_body_generated _ _ _ _ _ _ Hc Hai). cbn zeta.
      destruct (shell_reply w (commands w)); intros [= <- <- <-];
        eexists _, _; (split_and!; [reflexivity..|]); by count_events.
    + rewrite (attempt_body_unknown _ _ _ _ _ Hk Hai). cbn zeta.
      intros [= <- <- <-].
      eexists _, _; (split_and!; [reflexivity..|]); by count_events.
  - rewrite (attempt_body_rejected _ _ _ _ _ Hai). discriminate.
Qed.

(** When the loop returns after at least one pass, the output file holds
    the script built from the reply to its last request, and no other
    file has changed. *)
Lemma while_loop_file (framework outputPath : string) (n : nat) :
  forall (v v' : LoopVars) (w w' : World),
    MAX_ATTEMPTS - attempt v <= n ->
    while_loop framework outputPath v w = (Normal v', w') ->
    ai_reply w' = ai_reply w
    /\ requests w <= requests w'
    /\ (loop_condition v = false -> w' = w)
    /\ (loop_condition v = true ->
        exists response,
          requests w < requests w'
          /\ ai_reply w (requests w' - 1) = Normal response
          /\ files w' !! outputPath = Some (script_of response)
          /\ forall p, p <> outputPath -> files w' !! p = files w !! p).
Proof.
  induction n as [|n IH]; intros v v' w w' Hn Hrun.
  - rewrite while_loop_exit in Hrun by (apply loop_condition_at_max; lia).
    injection Hrun as <- <-. split_and!; [done | done | done |].
    rewrite loop_condition_at_max by lia. discriminate.
  - destruct (loop_condition v) eqn:Hc.
    + rewrite (while_loop_continue _ _ _ _ Hc) in Hrun.
      destruct (attempt_body framework outputPath v w) as [[[s e]|e] w1] eqn:Hb;
        [|discriminate].
      apply attempt_body_returns in Hb as (response & new & Hai & -> & Hg).
      apply loop_condition_true in Hc as [Hlt _].
      apply IH in Hrun as (Hai' & Hle & Hstop & Hgo); [|cbn [attempt]; lia].
      rewrite requests_after, Hg in *. cbn [ai_reply after] in *.
      split_and!; [done | lia | done |]. intros _.
      destruct (loop_condition (mkVars (S (attempt v)) s e)) eqn:Hc1.
      * destruct (Hgo eq_refl) as (r & Hlt' & Hr & Hfile & Hother).
        exists r. split_and!; [lia | done | done |].
        intros p Hp. rewrite (Hother p Hp). cbn [files after].
        by rewrite lookup_insert_ne.
      * rewrite (Hstop eq_refl). exists response. rewrite requests_after, Hg.
        replace (requests w + 1 - 1) with (requests w) by lia.
        cbn [files after]. split_and!; [lia | done | by rewrite lookup_insert_eq |].
        intros p Hp. by rewrite lookup_insert_ne.
    + rewrite (while_loop_exit _ _ _ _ Hc) in Hrun.
      injection Hrun as <- <-. split_and!; done.
Qed.

Lemma generateAndDebug_supported (framework name : string) (w : World) :
  OUTPUT_FILES !! framework = Some name ->
  generateAndDebug framework w =
    match while_loop framework (Path.join TESTDIR name)
            (mkVars 0 false EmptyString)
            (after w [start_log framework] (files w)) with
    | (Normal v, w1) =>
        if succeeded v then (Normal tt, w1)
        else (Normal tt,
              after w1 [exhausted_log framework (lastError v)] (files w1))
    | (Throw e, w1) => (Throw e, w1)
    end.
Proof.
  intros Hname. unfold generateAndDebug. rewrite Hname. unfold Path.join_opt.
  unfold bind at 1, ret at 1. unfold bind at 1, console_log at 1, emit at 1.
  unfold bind at 1. fold (after w [start_log framework] (files w)).
  destruct (while_loop _ _ _ _) as [[v|e] w1]; [|reflexivity].
  by destruct (succeeded v).
Qed.

Lemma attempt_body_thrown (framework outputPath : string) (v : LoopVars)
    (w w1 : World) (e : JsError) :
  attempt_body framework outputPath v w = (Throw e, w1) ->
  ai_reply w (requests w) = Throw e
  /\ w1 = after w [attempt_log framework (attempt v);
                   generation_event framework (lastError v)] (files w).
Proof.
  destruct (ai_reply w (requests w)) as [response|err] eqn:Hai.
  - destruct (known framework) eqn:Hk.
    + destruct (known_command framework outputPath Hk) as [command Hc].
      rewrite (attempt_body_generated _ _ _ _ _ _ Hc Hai). cbn zeta.
      destruct (shell_reply w (commands w)); discriminate.
    + rewrite (attempt_body_unknown _ _ _ _ _ Hk Hai). discriminate.
  - rewrite (attempt_body_rejected _ _ _ _ _ Hai). by intros [= <- <-].
Qed.

(** When the loop throws, the last request it made was rejected with the
    error thrown; the output file holds the script built from the reply
    to the request before, and when there is none, the files are as they
    were. *)
Lemma while_loop_thrown (framework outputPath : string) (n : nat) :
  forall (v : LoopVars) (w w' : World) (e : JsError),
    MAX_ATTEMPTS - attempt v <= n ->
    while_loop framework outputPath v w = (Throw e, w') ->
    requests w < requests w'
    /\ ai_reply w (requests w' - 1) = Throw e
    /\ (forall p, p <> outputPath -> files w' !! p = files w !! p)
    /\ (requests w' = requests w + 1 -> files w' = files w)
    /\ (requests w + 1 < requests w' ->
        exists earlier,
          ai_reply w (requests w' - 2) = Normal earlier
          /\ files w' !! outputPath = Some (script_of earlier)).
Proof.
  induction n as [|n IH]; intros v w w' e Hn Hrun.
  - rewrite while_loop_exit in Hrun by (apply loop_condition_at_max; lia).
    discriminate.
  - destruct (loop_condition v) eqn:Hc.
    2: { rewrite (while_loop_exit _ _ _ _ Hc) in Hrun. discriminate. }
    rewrite (while_loop_continue _ _ _ _ Hc) in Hrun.
    destruct (attempt_body framework outputPath v w) as [[[s e0]|e0] w1] eqn:Hb.
    + apply attempt_body_returns in Hb as (response & new & Hai & -> & Hg).
      apply loop_condition_true in Hc as [Hlt _].
      apply IH in Hrun as (Hlt' & Hlast & Hother & Hone & Hmore);
        [|cbn [attempt]; lia].
      rewrite requests_after, Hg in *. cbn [ai_reply files after] in *.
      split_and!; [lia | done | | lia |].
      * intros p Hp. rewrite (Hother p Hp). by rewrite lookup_insert_ne.
      * intros _.
        destruct (decide (requests w' = requests w + 1 + 1)) as [Heq|Hne].
        -- exists response. rewrite (Hone Heq), Heq.
           replace (requests w + 1 + 1 - 2) with (requests w) by lia.
           split; [done | by rewrite lookup_insert_eq].
        -- apply Hmore. lia.
    + injection Hrun as <- <-.
      apply attempt_body_thrown in Hb as [Hai ->].
      rewrite requests_after. count_events. cbn [files after].
      replace (requests w + 1 - 1) with (requests w) by lia.
      split_and!; [lia | done | done | done | lia].
Qed.

(** C6, as the code has it.  A run of [generateAndDebug] for a framework
    with an output file makes at least one and at most [MAX_ATTEMPTS]
    generation requests and touches no file but the one at the
    framework's output path.  When the run returns, every request was
    answered and that file holds exactly the script built from the
    reply to the last one, whether or not its execution succeeded:
    every earlier script has been replaced.  When the last request is
    rejected, the run throws that error and the final attempt has no
    script: the file holds the script of the attempt before, and when
    it is the first request that is rejected, the output path is as it
    was before the run. *)
Theorem output_file_holds_last_script (framework name : string) (w w' : World)
    (c : Completion unit) :
  OUTPUT_FILES !! framework = Some name ->
  generateAndDebug framework w = (c, w') ->
  let outputPath := Path.join TESTDIR name in
  requests w < requests w' <= requests w + MAX_ATTEMPTS
  /\ (forall p, p <> outputPath -> files w' !! p = files w !! p)
  /\ match ai_reply w (requests w' - 1) with
     | Normal response =>
         c = Normal tt -> files w' !! outputPath = Some (script_of response)
     | Throw e =>
         c = Throw e
         /\ (requests w' = requests w + 1 ->
             files w' !! outputPath = files w !! outputPath)
         /\ (requests w + 1 < requests w' ->
             exists earlier,
               ai_reply w (requests w' - 2) = Normal earlier
               /\ files w' !! outputPath = Some (script_of earlier))
     end.
Proof.
  intros Hname Hrun0 outputPath. revert Hrun0.
  rewrite (generateAndDebug_supported _ _ _ Hname). fold outputPath.
  set (w0 := after w [start_log framework] (files w)).
  set (v0 := mkVars 0 false EmptyString).
  destruct (while_loop_bounded framework outputPath MAX_ATTEMPTS v0 w0)
    as (c1 & new & fs & Hrun & Hg & _ & _); [cbn [attempt v0]; lia|].
  assert (H0 : requests w0 = requests w)
    by (unfold w0; rewrite requests_after; by count_events).
  rewrite Hrun. destruct c1 as [v|e].
  - pose proof (while_loop_file framework outputPath MAX_ATTEMPTS v0 v _ _
                  ltac:(cbn [attempt v0]; lia) Hrun) as (_ & _ & _ & Hgo).
    destruct (Hgo eq_refl) as (response & Hlt & Hr & Hf & Hother).
    rewrite requests_after, H0 in Hlt, Hr.
    cbn [files after ai_reply w0] in Hf, Hother, Hr.
    intros Hw'.
    assert (Hreq : requests w' = requests w + count is_generate new
                   /\ files w' = fs).
    { destruct (succeeded v); injection Hw' as <- <-.
      - by rewrite requests_after, H0.
      - rewrite !requests_after, H0. by count_events. }
    destruct Hreq as [-> ->]. rewrite Hr.
    split_and!; [lia | lia | done | done].
  - pose proof (while_loop_thrown framework outputPath MAX_ATTEMPTS v0 _ _ e
                  ltac:(cbn [attempt v0]; lia) Hrun)
      as (Hlt & Hlast & Hother & Hone & Hmore).
    rewrite requests_after, H0 in Hlt, Hlast, Hone, Hmore.
    cbn [files after ai_reply w0] in Hlast, Hother, Hone, Hmore.
    intros [= <- <-]. rewrite requests_after, H0. cbn [files after].
    rewrite Hlast.
    split_and!; [lia | lia | done | done | | done].
    intros Heq. by rewrite (Hone Heq).
Qed.

(** ** Errors within an attempt *)

Lemma attempt_body_first_events (framework outputPath : string) (v : LoopVars)
    (w : World) :
  exists rest fs,
    snd (attempt_body framework outputPath v w) =
      after w ([attempt_log framework (attempt v);
                generation_event framework (lastError v)] ++ rest) fs.
Proof.
  destruct (ai_reply w (requests w)) as [response|e] eqn:Hai.
  - destruct (known framework) eqn:Hk.
    + destruct (known_command framework outputPath Hk) as [command Hc].
      rewrite (attempt_body_generated _ _ _ _ _ _ Hc Hai). cbn zeta.
      destruct (shell_reply w (commands w)); eexists _, _; reflexivity.
    + rewrite (attempt_body_unknown _ _ _ _ _ Hk Hai).
      eexists _, _; reflexivity.
  - rewrite (attempt_body_rejected _ _ _ _ _ Hai). by exists [], (files w).
Qed.

Lemma while_loop_first_request (framework outputPath : string) (v : LoopVars)
    (w : World) :
  loop_condition v = true ->
  exists c rest fs,
    while_loop framework outputPath v w =
      (c, after w ([attempt_log framework (attempt v);
                    generation_event framework (lastError v)] ++ rest) fs).
Proof.
  intros Hc. rewrite (while_loop_continue _ _ _ _ Hc).
  destruct (attempt_body_first_events framework outputPath v w)
    as (rest & fs & Hw).
  destruct (attempt_body framework outputPath v w) as [[[s e]|e] w1];
    cbn [snd] in Hw; subst w1.
  - match goal with |- context [while_loop ?f ?o ?v1 ?w1] =>
      destruct (while_loop_bounded f o MAX_ATTEMPTS v1 w1)
        as (c & new & fs' & Hrun & _); [lia|]; rewrite Hrun
    end.
    rewrite after_after, <- app_assoc. by eexists _, _, _.
  - by eexists _, _, _.
Qed.

Lemma while_loop_rejected (framework outputPath : string) (v : LoopVars)
    (w : World) (e : JsError) :
  loop_condition v = true ->
  ai_reply w (requests w) = Throw e ->
  while_loop framework outputPath v w =
    (Throw e, after w [attempt_log framework (attempt v);
                       generation_event framework (lastError v)] (files w)).
Proof.
  intros Hc Hai. rewrite (while_loop_continue _ _ _ _ Hc).
  by rewrite (attempt_body_rejected _ _ _ _ _ Hai).
Qed.

(** C4, as the code has it.  An error of the execution is caught inside
    [executeTestScript], which never throws; the text of the error becomes
    [lastError], and when another attempt follows, its generation request is
    built from that text.  An error of the generation request is not
    caught: it ends the loop and leaves [generateAndDebug] as a thrown
    error, after one request and without a retry. *)
Theorem execution_errors_feed_retry (framework name : string) (v : LoopVars)
    (w : World) :
  OUTPUT_FILES !! framework = Some name ->
  loop_condition v = true ->
  let outputPath := Path.join TESTDIR name in
  (forall filePath w0, exists r w1,
      executeTestScript framework filePath w0 = (Normal r, w1))
  /\ (forall response err,
        ai_reply w (requests w) = Normal response ->
        shell_reply w (commands w) = Throw err ->
        exists c command rest fs,
          while_loop framework outputPath v w =
            (c, after w ([attempt_log framework (attempt v);
                          generation_event framework (lastError v);
                          EvWriteFile outputPath (script_of response);
                          EvExec command;
                          failure_log framework (attempt v) (error_output err)]
                         ++ rest) fs)
          /\ (S (attempt v) < MAX_ATTEMPTS ->
              exists rest',
                rest = [attempt_log framework (S (attempt v));
                        generation_event framework (error_output err)] ++ rest'))
  /\ (forall e,
        ai_reply w (requests w) = Throw e ->
        while_loop framework outputPath v w =
          (Throw e, after w [attempt_log framework (attempt v);
                             generation_event framework (lastError v)] (files w))
        /\ fst (generateAndDebug framework w) = Throw e
        /\ requests (snd (generateAndDebug framework w)) = requests w + 1).
Proof.
  intros Hname Hc outputPath.
  pose proof (output_file_known _ _ Hname) as Hk. split_and!.
  - intros filePath w0.
    destruct (known_command framework filePath Hk) as [command Hcmd].
    rewrite (executeTestScript_known _ _ _ _ Hcmd). by eexists _, _.
  - intros response err Hai Hsh.
    destruct (known_command framework outputPath Hk) as [command Hcmd].
    rewrite (while_loop_continue _ _ _ _ Hc).
    rewrite (attempt_body_generated _ _ _ _ _ _ Hcmd Hai). cbn zeta.
    rewrite Hsh.
    destruct (Nat.lt_ge_cases (S (attempt v)) MAX_ATTEMPTS) as [Hlt|Hge].
    + match goal with |- context [while_loop ?f ?o ?v1 ?w1] =>
        destruct (while_loop_first_request f o v1 w1)
          as (c & rest & fs & Hrun);
          [by apply loop_condition_true | rewrite Hrun]
      end.
      rewrite after_after, <- app_assoc. cbn [attempt lastError].
      eexists c, _, _, fs. split; [reflexivity|]. intros _. by eexists.
    + rewrite while_loop_exit by (apply loop_condition_at_max; cbn; lia).
      eexists _, _, [], _. rewrite app_nil_r. split; [reflexivity|]. lia.
  - intros e Hai.
    assert (Hai0 : ai_reply (after w [start_log framework] (files w))
                     (requests (after w [start_log framework] (files w)))
                   = Throw e).
    { rewrite requests_after. count_events. exact Hai. }
    split_and!.
    + by apply while_loop_rejected.
    + rewrite (generateAndDebug_supported _ _ _ Hname).
      by rewrite (while_loop_rejected _ _ (mkVars 0 false EmptyString) _ e
                 eq_refl Hai0).
    + rewrite (generateAndDebug_supported _ _ _ Hname).
      rewrite (while_loop_rejected _ _ (mkVars 0 false EmptyString) _ e
                 eq_refl Hai0).
      cbn [snd]. rewrite !requests_after. by count_events.
Qed.

(** ** The driver *)

(** The loop when the next [k] executions fail and use up the attempts. *)
Lemma while_loop_exhausts (framework outputPath command : string) (k : nat) :
  forall (v : LoopVars) (w : World),
    run_command framework outputPath = ret command ->
    succeeded v = false ->
    attempt v + k = MAX_ATTEMPTS ->
    (forall j, j < k -> exists r, ai_reply w (requests w + j) = Normal r) ->
    (forall j, j < k -> exists err, shell_reply w (commands w + j) = Throw err) ->
    exists v' new fs,
      while_loop framework outputPath v w = (Normal v', after w new fs)
      /\ succeeded v' = false
      /\ count is_generate new = k
      /\ count is_exec new = k.
Proof.
  induction k as [|k IH]; intros v w Hcmd Hs Hk Hai Hsh.
  - rewrite while_loop_exit by (apply loop_condition_at_max; lia).
    exists v, [], (files w). rewrite after_nil. by count_events.
  - assert (Hc : loop_condition v = true)
      by (apply loop_condition_true; split; [lia | done]).
    rewrite (while_loop_continue _ _ _ _ Hc).
    destruct (Hai 0) as [r Hr]; [lia|]. rewrite Nat.add_0_r in Hr.
    destruct (Hsh 0) as [err Herr]; [lia|]. rewrite Nat.add_0_r in Herr.
    rewrite (attempt_body_generated _ _ _ _ _ _ Hcmd Hr). cbn zeta.
    rewrite Herr.
    match goal with |- context [while_loop _ _ ?v1 ?w1] =>
      destruct (IH v1 w1 Hcmd) as (v' & new & fs & Hrun & Hs' & Hg & He)
    end.
    + reflexivity.
    + cbn [attempt]. lia.
    + intros j Hj. rewrite requests_after. count_events.
      destruct (Hai (S j)) as [r' Hr']; [lia|]. exists r'.
      cbn [ai_reply after]. rewrite <- Hr'. f_equal. lia.
    + intros j Hj. rewrite commands_after. count_events.
      destruct (Hsh (S j)) as [err' Herr']; [lia|]. exists err'.
      cbn [shell_reply after]. rewrite <- Herr'. f_equal. lia.
    + rewrite Hrun, after_after. eexists v', _, fs.
      split; [reflexivity|]. count_events. rewrite Hg, He. done.
Qed.

Lemma generateAndDebug_exhausted (framework name : string) (w : World) :
  OUTPUT_FILES !! framework = Some name ->
  exhausts w ->
  exists before err fs,
    generateAndDebug framework w =
      (Normal tt, after w (before ++ [exhausted_log framework err]) fs)
    /\ count is_generate before = MAX_ATTEMPTS
    /\ count is_exec before = MAX_ATTEMPTS.
Proof.
  intros Hname [Hai Hsh].
  destruct (known_command framework (Path.join TESTDIR name)
              (output_file_known _ _ Hname)) as [command Hcmd].
  rewrite (generateAndDebug_supported _ _ _ Hname).
  match goal with |- context [while_loop _ _ ?v1 ?w1] =>
    destruct (while_loop_exhausts framework (Path.join TESTDIR name) command
                MAX_ATTEMPTS v1 w1 Hcmd)
      as (v' & new & fs & Hrun & Hs' & Hg & He)
  end.
  - reflexivity.
  - reflexivity.
  - intros j Hj. rewrite requests_after. count_events. by apply Hai.
  - intros j Hj. rewrite commands_after. count_events. by apply Hsh.
  - rewrite Hrun, Hs', !after_after.
    exists (start_log framework :: new), (lastError v'), fs.
    split; [reflexivity|]. count_events. by rewrite Hg, He.
Qed.

Lemma generateAndDebug_starts (framework name : string) (w : World) :
  OUTPUT_FILES !! framework = Some name ->
  exists c rest fs,
    generateAndDebug framework w =
      (c, after w ([start_log framework; attempt_log framework 0;
                    generation_event framework EmptyString] ++ rest) fs).
Proof.
  intros Hname. rewrite (generateAndDebug_supported _ _ _ Hname).
  match goal with |- context [while_loop ?f ?o ?v1 ?w1] =>
    destruct (while_loop_first_request f o v1 w1)
      as (c & rest & fs & Hrun); [reflexivity | rewrite Hrun]
  end.
  destruct c as [v|e].
  - destruct (succeeded v); rewrite ?after_after; cbn [attempt lastError];
      by eexists _, _, _.
  - rewrite ?after_after. by eexists _, _, _.
Qed.

(** C5, as the code has it.  [generateAll] runs the loop for PLAYWRIGHT,
    then for TESTCAFE, then for SELENIUM, one after the other, each when
    the one before has returned.  When the three executions of
    PLAYWRIGHT all fail, its run ends with the report of the exhaustion
    and the TESTCAFE loop starts and issues its first generation
    request; likewise the SELENIUM loop starts after TESTCAFE has used
    up its attempts.  SELENIUM is the last: what [generateAll] does
    after TESTCAFE has returned is the SELENIUM loop and nothing else.
    A loop that throws ends [generateAll] with its error, and the
    frameworks after it are not run: when the first request is
    rejected, [generateAll] throws after that one request. *)
Theorem exhaustion_does_not_block_next (w : World) :
  (exhausts w ->
   exists before err fs1 c rest fs,
     generateAndDebug "PLAYWRIGHT" w =
       (Normal tt, after w (before ++ [exhausted_log "PLAYWRIGHT" err]) fs1)
     /\ generateAll w =
          (c, after w (before ++ [exhausted_log "PLAYWRIGHT" err]
                       ++ [start_log "TESTCAFE"; attempt_log "TESTCAFE" 0;
                           generation_event "TESTCAFE" EmptyString] ++ rest) fs))
  /\ (forall w1,
        generateAndDebug "PLAYWRIGHT" w = (Normal tt, w1) ->
        exhausts w1 ->
        exists before err fs2 c rest fs,
          generateAndDebug "TESTCAFE" w1 =
            (Normal tt, after w1 (before ++ [exhausted_log "TESTCAFE" err]) fs2)
          /\ generateAll w =
               (c, after w1 (before ++ [exhausted_log "TESTCAFE" err]
                             ++ [start_log "SELENIUM"; attempt_log "SELENIUM" 0;
                                 generation_event "SELENIUM" EmptyString]
                             ++ rest) fs))
  /\ (forall w1 w2,
        generateAndDebug "PLAYWRIGHT" w = (Normal tt, w1) ->
        generateAndDebug "TESTCAFE" w1 = (Normal tt, w2) ->
        generateAll w = generateAndDebug "SELENIUM" w2)
  /\ generateAll w
     = match generateAndDebug "PLAYWRIGHT" w with
       | (Normal _, w1) =>
           match generateAndDebug "TESTCAFE" w1 with
           | (Normal _, w2) => generateAndDebug "SELENIUM" w2
           | (Throw e, w2) => (Throw e, w2)
           end
       | (Throw e, w1) => (Throw e, w1)
       end
  /\ (forall e,
        ai_reply w (requests w) = Throw e ->
        generateAll w =
          (Throw e, after w [start_log "PLAYWRIGHT"; attempt_log "PLAYWRIGHT" 0;
                             generation_event "PLAYWRIGHT" EmptyString]
                          (files w)))
  /\ (forall e w1,
        generateAndDebug "PLAYWRIGHT" w = (Normal tt, w1) ->
        ai_reply w1 (requests w1) = Throw e ->
        generateAll w =
          (Throw e, after w1 [start_log "TESTCAFE"; attempt_log "TESTCAFE" 0;
                              generation_event "TESTCAFE" EmptyString]
                           (files w1))).
Proof.
  assert (Hstop : forall framework name w0 e,
            OUTPUT_FILES !! framework = Some name ->
            ai_reply w0 (requests w0) = Throw e ->
            generateAndDebug framework w0 =
              (Throw e, after w0 [start_log framework; attempt_log framework 0;
                                  generation_event framework EmptyString]
                              (files w0))).
  { intros framework name w0 e Hname Hai.
    rewrite (generateAndDebug_supported _ _ _ Hname).
    rewrite (while_loop_rejected _ _ (mkVars 0 false EmptyString) _ e eq_refl).
    - by rewrite after_after.
    - rewrite requests_after. count_events. exact Hai. }
  split_and!.
  - intros Hex.
    destruct (generateAndDebug_exhausted "PLAYWRIGHT" _ w eq_refl Hex)
      as (before & err & fs1 & Hrun & _).
    exists before, err, fs1.
    unfold generateAll. unfold bind at 1. rewrite Hrun. unfold bind at 1.
    destruct (generateAndDebug_starts "TESTCAFE" _
                (after w (before ++ [exhausted_log "PLAYWRIGHT" err]) fs1)
                eq_refl) as (c & rest & fs & Hnext).
    rewrite Hnext, after_after, <- app_assoc.
    destruct c as [[]|e].
    + match goal with |- context [generateAndDebug "SELENIUM" ?w2] =>
        destruct (generateAndDebug_events "SELENIUM" w2)
          as (c' & new & fs' & Hlast & _); rewrite Hlast
      end.
      rewrite after_after. exists c', (rest ++ new), fs'.
      split; [reflexivity|]. by rewrite <- !app_assoc.
    + by exists (Throw e), rest, fs.
  - intros w1 Hp Hex.
    destruct (generateAndDebug_exhausted "TESTCAFE" _ w1 eq_refl Hex)
      as (before & err & fs2 & Hrun & _).
    exists before, err, fs2.
    unfold generateAll. unfold bind at 1. rewrite Hp. unfold bind at 1.
    rewrite Hrun.
    destruct (generateAndDebug_starts "SELENIUM" _
                (after w1 (before ++ [exhausted_log "TESTCAFE" err]) fs2)
                eq_refl) as (c & rest & fs & Hnext).
    rewrite Hnext, after_after, <- app_assoc.
    by exists c, rest, fs.
  - intros w1 w2 Hp Ht. unfold generateAll. unfold bind at 1. rewrite Hp.
    unfold bind at 1. by rewrite Ht.
  - unfold generateAll. unfold bind at 1.
    destruct (generateAndDebug "PLAYWRIGHT" w) as [[[]|e] w1]; [|reflexivity].
    unfold bind at 1.
    by destruct (generateAndDebug "TESTCAFE" w1) as [[[]|e] w2].
  - intros e Hai. unfold generateAll. unfold bind at 1.
    by rewrite (Hstop "PLAYWRIGHT" _ w e eq_refl Hai).
  - intros e w1 Hp Hai. unfold generateAll. unfold bind at 1. rewrite Hp.
    unfold bind at 1. by rewrite (Hstop "TESTCAFE" _ w1 e eq_refl Hai).
Qed.

(** ** The project scan *)

(** Induction on a directory entry, with the hypothesis for every entry
    of a directory. *)
Lemma Dirent_nested_ind (P : Dirent -> Prop) :
  (forall name, P (File name)) ->
  (forall name entries, Forall P entries -> P (Dir name entries)) ->
  (forall name, P (Special name)) ->
  forall item, P item.
Proof.
  intros HF HD HS.
  fix IH 1. intros [name|name entries|name].
  - apply HF.
  - apply HD. induction entries as [|item entries IHentries].
    + constructor.
    + constructor; [apply IH | exact IHentries].
  - apply HS.
Qed.

(** Below a directory that is excluded, or below any directory under it,
    nothing is listed and nothing is read. *)
Lemma omap_cons_None {A B} (f : A -> option B) (x : A) (l : list A) :
  f x = None -> omap f (x :: l) = omap f l.
Proof. intros H. cbn. by rewrite H. Qed.

Lemma omap_cons_Some {A B} (f : A -> option B) (x : A) (l : list A) (y : B) :
  f x = Some y -> omap f (x :: l) = y :: omap f l.
Proof. intros H. cbn. by rewrite H. Qed.

Lemma unreachable_hidden (x : Walked) :
  reachable x = false -> listed x = None /\ scanned x = None.
Proof. unfold listed, scanned. by intros ->. Qed.

(** Below a directory that is excluded, or below any directory under it,
    nothing is listed and nothing is read. *)
Lemma below_excluded (item : Dirent) :
  forall (dir : string) (names : list string),
    forallb allowed names = false ->
    omap listed (walk_entry dir names item) = []
    /\ omap scanned (walk_entry dir names item) = [].
Proof.
  induction item as [name|name entries IH|name] using Dirent_nested_ind;
    intros dir names Hn; cbn [walk_entry];
    match goal with |- context [mkWalked ?p ?a ?i] =>
      destruct (unreachable_hidden (mkWalked p a i) Hn) as [Hl Hs]
    end;
    rewrite (omap_cons_None _ _ _ Hl), (omap_cons_None _ _ _ Hs); try done.
  assert (Hn' : forallb allowed (names ++ [name]) = false)
    by (by rewrite forallb_app, Hn).
  clear Hl Hs. generalize (Path.join dir name). intros sub.
  induction IH as [|item entries Hitem _ IHentries]; [done|].
  cbn [flat_map]. rewrite !omap_app.
  destruct (Hitem sub _ Hn') as [-> ->]. exact IHentries.
Qed.

(** What visiting an entry adds to [projectFiles] and reads. *)
Lemma visit_walk (item : Dirent) :
  forall (dir : string) (names : list string) (projectFiles : list string)
         (w : World),
    forallb allowed names = true ->
    visit dir item projectFiles w =
      (Normal (projectFiles ++ omap listed (walk_entry dir names item)),
       after w (List.map EvReaddir (omap scanned (walk_entry dir names item)))
             (files w)).
Proof.
  induction item as [name|name entries IH|name] using Dirent_nested_ind;
    intros dir names projectFiles w Hn.
  - cbn [visit walk_entry].
    destruct (source_file name) eqn:Hsrc.
    + rewrite (omap_cons_Some listed _ _ (file_line (Path.join dir name)))
        by (unfold listed, reachable; cbn; by rewrite Hn, Hsrc).
      rewrite (omap_cons_None scanned)
        by (unfold scanned, reachable; cbn; by rewrite Hn).
      cbn. by rewrite after_nil.
    + rewrite (omap_cons_None listed)
        by (unfold listed, reachable; cbn; by rewrite Hn, Hsrc).
      rewrite (omap_cons_None scanned)
        by (unfold scanned, reachable; cbn; by rewrite Hn).
      cbn. by rewrite after_nil, app_nil_r.
  - cbn [visit walk_entry].
    destruct (excluded name) eqn:Hex; cbn [negb].
    + assert (Hn' : forallb allowed (names ++ [name]) = false).
      { rewrite forallb_app, Hn. cbn. unfold allowed. by rewrite Hex. }
      rewrite (omap_cons_None listed)
        by (unfold listed, reachable; cbn; by rewrite Hn, Hex).
      rewrite (omap_cons_None scanned)
        by (unfold scanned, reachable; cbn; by rewrite Hn, Hex).
      assert (Hnone : forall sub,
                omap listed (flat_map (walk_entry sub (names ++ [name])) entries) = []
                /\ omap scanned (flat_map (walk_entry sub (names ++ [name])) entries) = []).
      { intros sub. clear IH. induction entries as [|item entries IHe]; [done|].
        cbn [flat_map]. rewrite !omap_app.
        destruct (below_excluded item sub _ Hn') as [-> ->].
        exact IHe. }
      destruct (Hnone (Path.join dir name)) as [-> ->].
      cbn [List.map]. by rewrite after_nil, app_nil_r.
    + assert (Hn' : forallb allowed (names ++ [name]) = true).
      { rewrite forallb_app, Hn. cbn. unfold allowed. by rewrite Hex. }
      rewrite (omap_cons_Some listed _ _ (dir_line (Path.join dir name)))
        by (unfold listed, reachable; cbn; by rewrite Hn, Hex).
      rewrite (omap_cons_Some scanned _ _ (Path.join dir name))
        by (unfold scanned, reachable; cbn; by rewrite Hn, Hex).
      cbn zeta. unfold bind at 1, readdirSync at 1, bind at 1, emit at 1, ret at 1.
      fold (after w [EvReaddir (Path.join dir name)] (files w)).
      generalize (Path.join dir name). intros sub.
      assert (Hgen : forall acc w0,
                forEach (visit sub) entries acc w0 =
                  (Normal (acc ++ omap listed
                                    (flat_map (walk_entry sub (names ++ [name])) entries)),
                   after w0 (List.map EvReaddir
                               (omap scanned
                                  (flat_map (walk_entry sub (names ++ [name])) entries)))
                         (files w0))).
      { induction IH as [|item entries Hitem _ IHentries]; intros acc w0.
        - cbn. by rewrite after_nil, app_nil_r.
        - cbn [forEach flat_map]. unfold bind at 1.
          rewrite (Hitem sub _ acc w0 Hn'). fold (@forEach Dirent (list string)).
          rewrite IHentries, after_after, !omap_app, List.map_app, app_assoc.
          reflexivity. }
      rewrite Hgen, after_after.
      cbn [List.map app files after]. by rewrite <- app_assoc.
  - cbn [visit walk_entry].
    rewrite (omap_cons_None listed)
      by (unfold listed, reachable; cbn; by rewrite Hn).
    rewrite (omap_cons_None scanned)
      by (unfold scanned, reachable; cbn; by rewrite Hn).
    cbn. by rewrite after_nil, app_nil_r.
Qed.

(** The scan returns the listing and reads the root and the listed
    directories. *)
Lemma getProjectContext_run (root : string) (project : list Dirent) (w : World) :
  getProjectContext root project w =
    (Normal (Js.join Js.nl (omap listed (walk root project))),
     after w (List.map EvReaddir (root :: omap scanned (walk root project)))
           (files w)).
Proof.
  unfold getProjectContext, readDirRecursive.
  unfold bind at 1, bind at 1, readdirSync at 1, bind at 1, emit at 1, ret at 1.
  fold (after w [EvReaddir root] (files w)).
  assert (Hgen : forall entries acc w0,
            forEach (visit root) entries acc w0 =
              (Normal (acc ++ omap listed (flat_map (walk_entry root []) entries)),
               after w0 (List.map EvReaddir
                           (omap scanned (flat_map (walk_entry root []) entries)))
                     (files w0))).
  { induction entries as [|item entries IH]; intros acc w0.
    - cbn. by rewrite after_nil, app_nil_r.
    - cbn [forEach flat_map]. unfold bind at 1.
      rewrite (visit_walk item root [] acc w0 eq_refl).
      fold (@forEach Dirent (list string)).
      rewrite IH, after_after, !omap_app, List.map_app, app_assoc.
      reflexivity. }
  rewrite Hgen, after_after. reflexivity.
Qed.

(** The table [basePrompts] as the module builds it: one scan for each
    template, all three with the same listing. *)
Lemma load_basePrompts_table (root : string) (project : list Dirent) (w : World) :
  let context := Js.join Js.nl (omap listed (walk root project)) in
  let reads := List.map EvReaddir (root :: omap scanned (walk root project)) in
  load_basePrompts TESTDIR root project w =
    (Normal (<["PLAYWRIGHT" := playwrightPrompt TESTDIR context]>
             (<["TESTCAFE" := testcafePrompt TESTDIR context]>
              (<["SELENIUM" := seleniumPrompt TESTDIR context]> ∅))),
     after w (reads ++ reads ++ reads) (files w)).
Proof.
  intros context reads. unfold load_basePrompts.
  unfold bind at 1. rewrite getProjectContext_run.
  unfold bind at 1. rewrite getProjectContext_run.
  unfold bind at 1. rewrite getProjectContext_run.
  unfold ret. cbn [files after]. rewrite !after_after.
  fold context reads. by rewrite <- ?app_assoc.
Qed.

(** The agent's tests on names are those of the specification. *)
Lemma excluded_left_out (name : string) : excluded name = Manifest.left_out name.
Proof.
  unfold excluded, Manifest.left_out.
  destruct (String.eqb_spec name "node_modules") as [->|H1]; [reflexivity|].
  destruct (String.eqb_spec name ".git") as [->|H2]; [reflexivity|].
  symmetry. apply bool_decide_eq_false.
  rewrite !elem_of_cons, elem_of_nil. tauto.
Qed.

Lemma left_out_names (name : string) :
  Manifest.left_out name = false <-> name <> "node_modules" /\ name <> ".git".
Proof.
  unfold Manifest.left_out.
  rewrite bool_decide_eq_false, !elem_of_cons, elem_of_nil. tauto.
Qed.

Lemma reachable_above (x : Walked) :
  reachable x = negb (existsb Manifest.left_out (above x)).
Proof.
  unfold reachable. induction (above x) as [|name names IH]; [reflexivity|].
  cbn [forallb existsb]. unfold allowed at 1.
  rewrite IH, excluded_left_out. by destruct (Manifest.left_out name).
Qed.

Lemma above_names (names : list string) :
  existsb Manifest.left_out names = false <->
  Forall (fun name => name <> "node_modules" /\ name <> ".git") names.
Proof.
  induction names as [|name names IH]; cbn [existsb].
  - split; [constructor | done].
  - rewrite orb_false_iff, IH, left_out_names, Forall_cons. tauto.
Qed.

Lemma listed_line (x : Walked) : listed x = Manifest.line x.
Proof.
  unfold listed, Manifest.line, source_file, Manifest.source_name,
    dir_line, file_line.
  rewrite reachable_above.
  destruct (existsb Manifest.left_out (above x)); cbn [negb]; [reflexivity|].
  destruct (entry x) as [name|name entries|name]; try reflexivity.
  - cbn [existsb]. by rewrite orb_false_r.
  - by rewrite excluded_left_out.
Qed.

Lemma scanned_read (x : Walked) : scanned x = Manifest.read x.
Proof.
  unfold scanned, Manifest.read. rewrite reachable_above.
  destruct (existsb Manifest.left_out (above x)); cbn [negb]; [reflexivity|].
  destruct (entry x) as [name|name entries|name]; try reflexivity.
  by rewrite excluded_left_out.
Qed.

Lemma omap_pointwise {A B} (f g : A -> option B) (l : list A) :
  (forall x, f x = g x) -> omap f l = omap g l.
Proof.
  intros H. induction l as [|x l IH]; [reflexivity|].
  cbn [omap list_omap]. fold (omap f l) (omap g l). by rewrite H, IH.
Qed.

(** [s.endsWith(suffix)] holds exactly of a stem followed by the suffix. *)
Lemma endsWith_stem (s suffix : string) :
  Js.endsWith s suffix = true <-> exists stem, s = stem +:+ suffix.
Proof.
  split.
  - induction s as [|c s IH].
    + cbn [Js.endsWith]. rewrite orb_false_r. intros H%String.eqb_eq.
      by exists EmptyString.
    + cbn [Js.endsWith]. intros [H%String.eqb_eq|H]%orb_prop.
      * by exists EmptyString.
      * destruct (IH H) as [stem ->]. by exists (String c stem).
  - intros [stem ->]. induction stem as [|c stem IH].
    + rewrite append_nil_l.
      destruct suffix; cbn [Js.endsWith]; by rewrite String.eqb_refl.
    + rewrite append_cons. cbn [Js.endsWith]. rewrite IH. apply orb_true_r.
Qed.

Lemma source_name_stem (name : string) :
  Manifest.source_name name = true <->
  exists stem, name = stem +:+ ".ts" \/ name = stem +:+ ".js".
Proof.
  unfold Manifest.source_name. cbn [existsb].
  rewrite orb_false_r, orb_true_iff, !endsWith_stem. split.
  - intros [[stem ->]|[stem ->]]; exists stem; tauto.
  - intros [stem [->| ->]]; [left | right]; by exists stem.
Qed.

(** The lines of the listing, entry by entry. *)
Lemma line_cases (x : Walked) (l : string) :
  Manifest.line x = Some l <->
  Forall (fun name => name <> "node_modules" /\ name <> ".git") (above x)
  /\ ((exists name entries,
         entry x = Dir name entries
         /\ name <> "node_modules" /\ name <> ".git"
         /\ l = "📁 " +:+ full_path x)
      \/ (exists name stem,
            entry x = File name
            /\ (name = stem +:+ ".ts" \/ name = stem +:+ ".js")
            /\ l = "📄 " +:+ full_path x)).
Proof.
  unfold Manifest.line. rewrite <- above_names.
  destruct (existsb Manifest.left_out (above x)).
  { split; [discriminate | by intros [? _]]. }
  destruct (entry x) as [name|name entries|name].
  - destruct (Manifest.source_name name) eqn:Hs.
    + apply source_name_stem in Hs as [stem Hs]. split.
      * intros [= <-]. split; [done|]. right. by exists name, stem.
      * by intros [_ [(? & ? & ? & _)|(? & ? & _ & _ & ->)]].
    + split; [discriminate|].
      intros [_ [(? & ? & ? & _)|(name' & stem & [= <-] & Hstem & _)]];
        [discriminate|].
      assert (Manifest.source_name name = true)
        by (apply source_name_stem; by exists stem).
      congruence.
  - destruct (Manifest.left_out name) eqn:Hl.
    + split; [discriminate|].
      intros [_ [(name' & es & [= <- <-] & H1 & H2 & _)|(? & ? & ? & _)]];
        [|discriminate].
      assert (Manifest.left_out name = false) by (by apply left_out_names).
      congruence.
    + apply left_out_names in Hl as [H1 H2]. split.
      * intros [= <-]. split; [done|]. left. by exists name, entries.
      * by intros [_ [(? & ? & _ & _ & _ & ->)|(? & ? & ? & _)]].
  - split; [discriminate|].
    by intros [_ [(? & ? & ? & _)|(? & ? & ? & _)]].
Qed.

(** C8, as the code has it.  For every directory tree,
    [getProjectContext] returns the listing of the specification: the
    lines, joined by line feeds and in the order of a depth-first walk,
    of the entries beneath the root that have no directory named
    [node_modules] or [.git] above them and are a directory not of such
    a name itself (marked as a directory) or a file whose name ends in
    [.ts] or [.js] (marked as a file).  A directory named [node_modules]
    or [.git] is neither listed nor entered, so nothing below it is
    listed, whatever it is.  The scan reads the root and the
    directories it lists and nothing else, and it writes nothing: its
    only events are directory reads and the files are unchanged. *)
Theorem getProjectContext_listing (root : string) (project : list Dirent)
    (w : World) :
  let reads := root :: omap Manifest.read (walk root project) in
  getProjectContext root project w =
    (Normal (Manifest.listing root project),
     after w (List.map EvReaddir reads) (files w))
  /\ count is_write (List.map EvReaddir reads) = 0
  /\ forall l,
       l ∈ omap Manifest.line (walk root project) <->
       exists x,
         x ∈ walk root project
         /\ Forall (fun name => name <> "node_modules" /\ name <> ".git")
                   (above x)
         /\ ((exists name entries,
                entry x = Dir name entries
                /\ name <> "node_modules" /\ name <> ".git"
                /\ l = "📁 " +:+ full_path x)
             \/ (exists name stem,
                   entry x = File name
                   /\ (name = stem +:+ ".ts" \/ name = stem +:+ ".js")
                   /\ l = "📄 " +:+ full_path x)).
Proof.
  intros reads. split_and!.
  - rewrite getProjectContext_run. unfold Manifest.listing, reads.
    rewrite (omap_pointwise listed Manifest.line _ listed_line).
    by rewrite (omap_pointwise scanned Manifest.read _ scanned_read).
  - unfold count. generalize reads. intros l. by induction l.
  - intros l. rewrite list_elem_of_omap.
    split; intros (x & Hx & Hl); exists x; (split; [exact Hx|]);
      by apply line_cases.
Qed.

(** * Further properties *)

(** ** Setup *)

Lemma install_entry_run (entry : string * list string) (w : World) :
  install_entry entry w =
    (Normal tt,
     after w ([EvConsole Log ("Installing " +:+ fst entry +:+ " dependencies...");
               install_command entry]
              ++ match shell_reply w (commands w) with
                 | Normal _ => []
                 | Throw error =>
                     [EvConsole Error
                        ("Failed to install " +:+ fst entry +:+ " dependencies:"
                         +:+ " " +:+ show_error error)]
                 end)
           (files w)).
Proof.
  unfold install_entry, try_catch, bind, console_log, console_error, emit,
    execPromise, ret, after, commands, install_command. simpl.
  count_events.
  destruct (shell_reply w (count is_exec (trace w))); simpl;
    by rewrite <- ?app_assoc.
Qed.

Lemma failing_commands_step (w : World) (from n : nat) :
  failing_commands w from (S n) =
    (if rejected (shell_reply w from) then 1 else 0)
    + failing_commands w (S from) n.
Proof.
  unfold failing_commands. rewrite <- cons_seq, <- seq_shift. cbn [List.filter].
  rewrite Nat.add_0_r.
  assert (Htail : length (List.filter
                            (fun j => rejected (shell_reply w (from + j)))
                            (List.map S (seq 0 n)))
                  = length (List.filter
                              (fun j => rejected (shell_reply w (S from + j)))
                              (seq 0 n))).
  { induction (seq 0 n) as [|j l IH]; [reflexivity|]. cbn [List.map List.filter].
    replace (from + S j) with (S from + j) by lia.
    destruct (rejected (shell_reply w (S from + j))); cbn [length]; by rewrite IH. }
  destruct (rejected (shell_reply w from)); cbn [length]; by rewrite Htail.
Qed.

Lemma says_installing (name : string) :
  says "Failed to install " (EvConsole Log ("Installing " +:+ name)) = false.
Proof. reflexivity. Qed.

Lemma says_failed (name : string) :
  says "Failed to install " (EvConsole Error ("Failed to install " +:+ name)) = true.
Proof. apply prefix_append. Qed.

(** A loop over install entries returns, having run one command per
    entry, in order, and reported each failure. *)
Lemma for_of_install (entries : list (string * list string)) :
  forall w : World,
    exists events,
      for_of entries install_entry w = (Normal tt, after w events (files w))
      /\ List.filter is_exec events = List.map install_command entries
      /\ count (says "Failed to install ") events
         = failing_commands w (commands w) (length entries)
      /\ count is_generate events = 0
      /\ count is_write events = 0.
Proof.
  induction entries as [|entry entries IH]; intros w.
  - exists []. cbn [for_of]. unfold ret. rewrite after_nil. by split_and!.
  - cbn [for_of]. unfold bind at 1. rewrite install_entry_run.
    cbn [length]. rewrite failing_commands_step.
    destruct (shell_reply w (commands w)) as [out|error]; cbn [rejected];
      match goal with |- context [for_of entries install_entry ?w1] =>
        destruct (IH w1) as (events & Hrun & Hexec & Hfail & Hg & Hw)
      end;
      rewrite Hrun, after_after; cbn [files after];
      rewrite commands_after in Hfail; revert Hfail;
      rewrite !count_app, !count_cons, count_nil; cbn [is_exec install_command];
      rewrite ?Nat.add_0_r, Nat.add_1_r; intros Hfail;
      (eexists; split; [reflexivity|]);
      rewrite !List.filter_app, !count_app, !count_cons, !count_nil,
        ?says_installing, ?says_failed, Hexec, Hfail, Hg, Hw;
      by split_and!.
Qed.

(** The events of [installDependencies]. *)
Lemma installDependencies_events (w : World) :
  exists events,
    installDependencies w = (Normal tt, after w events (files w))
    /\ List.filter is_exec events
       = [ EvExec "npm install -D @playwright/test playwright";
           EvExec "npm install -D selenium-webdriver @types/selenium-webdriver mocha @types/mocha chai @types/chai ts-mocha typescript";
           EvExec "npm install -D testcafe";
           EvExec "npm install -D webdriverio appium @wdio/appium-service" ]
    /\ count (says "Failed to install ") events = failing_commands w (commands w) 4
    /\ count is_generate events = 0
    /\ count is_write events = 0.
Proof.
  unfold installDependencies. unfold bind at 1, console_log at 1, emit at 1.
  match goal with |- context [for_of dependencies install_entry ?w1] =>
    destruct (for_of_install dependencies w1)
      as (events & Hrun & Hexec & Hfail & Hg & Hw)
  end.
  rewrite Hrun. unfold after at 1. cbn [trace files ai_reply shell_reply].
  exists (EvConsole Log "📦 Installing required dependencies..." :: events).
  split; [unfold after; by rewrite <- app_assoc|].
  unfold commands in Hfail. cbn [trace] in Hfail. revert Hfail.
  rewrite !count_app, !count_cons, !count_nil. cbn [is_exec is_generate is_write].
  rewrite ?Nat.add_0_r. intros Hfail.
  cbn [List.filter is_exec]. rewrite Hexec, Hg, Hw.
  split_and!; [reflexivity | | reflexivity..].
  change (says "Failed to install "
            (EvConsole Log "📦 Installing required dependencies...")) with false.
  exact Hfail.
Qed.

(** X1.  [installDependencies] never throws.  Whatever the shell
    replies, it runs the four install commands, in the order of the
    entries of [dependencies], one after the other: a failed install is
    reported and the next one still runs.  It reports exactly as many
    failures as commands failed, and the agent makes no generation
    request and calls no [writeFileSync] in it. *)
Theorem installDependencies_runs_all (w : World) :
  exists events,
    fst (installDependencies w) = Normal tt
    /\ trace (snd (installDependencies w)) = trace w ++ events
    /\ List.filter is_exec events
       = [ EvExec "npm install -D @playwright/test playwright";
           EvExec "npm install -D selenium-webdriver @types/selenium-webdriver mocha @types/mocha chai @types/chai ts-mocha typescript";
           EvExec "npm install -D testcafe";
           EvExec "npm install -D webdriverio appium @wdio/appium-service" ]
    /\ count (says "Failed to install ") events = failing_commands w (commands w) 4
    /\ count is_generate events = 0
    /\ count is_write events = 0.
Proof.
  destruct (installDependencies_events w) as (events & Hrun & H).
  exists events. rewrite Hrun. split; [reflexivity|]. split; [reflexivity|].
  exact H.
Qed.

Lemma createTsConfig_run (w : World) :
  createTsConfig w =
    match files w !! Path.join_up TESTDIR "tsconfig.json" with
    | Some _ => (Normal tt, w)
    | None =>
        (Normal tt,
         after w [EvWriteFile (Path.join_up TESTDIR "tsconfig.json")
                    (Json.stringify EmptyString tsConfig);
                  EvConsole Log "Created tsconfig.json"]
               (<[Path.join_up TESTDIR "tsconfig.json"
                  := Json.stringify EmptyString tsConfig]> (files w)))
    end.
Proof.
  unfold createTsConfig. cbn zeta. unfold bind at 1, existsSync.
  destruct (files w !! Path.join_up TESTDIR "tsconfig.json") as [old|] eqn:Hf.
  - rewrite bool_decide_eq_true_2 by eauto. reflexivity.
  - rewrite bool_decide_eq_false_2 by (by intros [? ?]).
    cbn [negb]. unfold bind, writeFileSync, console_log, emit, after. cbn.
    by rewrite <- app_assoc.
Qed.

Lemma createMochaConfig_run (w : World) :
  createMochaConfig w =
    match files w !! Path.join_up TESTDIR ".mocharc.json" with
    | Some _ => (Normal tt, w)
    | None =>
        (Normal tt,
         after w [EvWriteFile (Path.join_up TESTDIR ".mocharc.json")
                    (Json.stringify EmptyString mochaConfig);
                  EvConsole Log "Created .mocharc.json"]
               (<[Path.join_up TESTDIR ".mocharc.json"
                  := Json.stringify EmptyString mochaConfig]> (files w)))
    end.
Proof.
  unfold createMochaConfig. cbn zeta. unfold bind at 1, existsSync.
  destruct (files w !! Path.join_up TESTDIR ".mocharc.json") as [old|] eqn:Hf.
  - rewrite bool_decide_eq_true_2 by eauto. reflexivity.
  - rewrite bool_decide_eq_false_2 by (by intros [? ?]).
    cbn [negb]. unfold bind, writeFileSync, console_log, emit, after. cbn.
    by rewrite <- app_assoc.
Qed.

(** X2.  [createTsConfig] never replaces a [tsconfig.json] that is
    there: it then returns without an event.  When it returns, the file
    holds what it held before, or the rendered [tsConfig] when it was
    missing, and only then is there a write, followed by the message
    that the file was created.  It touches no other file, and running
    it again does nothing. *)
Theorem createTsConfig_keeps_existing (w : World) :
  let tsConfigPath := Path.join_up TESTDIR "tsconfig.json" in
  let content := Json.stringify EmptyString tsConfig in
  (is_Some (files w !! tsConfigPath) -> createTsConfig w = (Normal tt, w))
  /\ forall w',
       createTsConfig w = (Normal tt, w') ->
       files w' !! tsConfigPath
       = Some (default content (files w !! tsConfigPath))
       /\ trace w' = trace w ++ match files w !! tsConfigPath with
                                 | Some _ => []
                                 | None => [EvWriteFile tsConfigPath content;
                                            EvConsole Log "Created tsconfig.json"]
                                 end
       /\ (forall q, q <> tsConfigPath -> files w' !! q = files w !! q)
       /\ createTsConfig w' = (Normal tt, w').
Proof.
  intros tsConfigPath content. rewrite createTsConfig_run.
  fold tsConfigPath content. split.
  - by intros [old ->].
  - intros w'. destruct (files w !! tsConfigPath) as [old|] eqn:Hf.
    + intros [= <-]. rewrite createTsConfig_run. fold tsConfigPath.
      rewrite Hf, app_nil_r. by split_and!.
    + intros [= <-]. rewrite createTsConfig_run.
      fold tsConfigPath content. cbn [files after trace].
      rewrite lookup_insert_eq. split_and!; try reflexivity.
      intros q Hq. by rewrite lookup_insert_ne.
Qed.

(** X3.  [createMochaConfig] never replaces a [.mocharc.json] that is
    there: it then returns without an event.  When it returns, the file
    holds what it held before, or the rendered [mochaConfig] when it
    was missing, and only then is there a write, followed by the
    message that the file was created.  It touches no other file, and
    running it again does nothing. *)
Theorem createMochaConfig_keeps_existing (w : World) :
  let mochaConfigPath := Path.join_up TESTDIR ".mocharc.json" in
  let content := Json.stringify EmptyString mochaConfig in
  (is_Some (files w !! mochaConfigPath) -> createMochaConfig w = (Normal tt, w))
  /\ forall w',
       createMochaConfig w = (Normal tt, w') ->
       files w' !! mochaConfigPath
       = Some (default content (files w !! mochaConfigPath))
       /\ trace w' = trace w ++ match files w !! mochaConfigPath with
                                 | Some _ => []
                                 | None => [EvWriteFile mochaConfigPath content;
                                            EvConsole Log "Created .mocharc.json"]
                                 end
       /\ (forall q, q <> mochaConfigPath -> files w' !! q = files w !! q)
       /\ createMochaConfig w' = (Normal tt, w').
Proof.
  intros mochaConfigPath content. rewrite createMochaConfig_run.
  fold mochaConfigPath content. split.
  - by intros [old ->].
  - intros w'. destruct (files w !! mochaConfigPath) as [old|] eqn:Hf.
    + intros [= <-]. rewrite createMochaConfig_run. fold mochaConfigPath.
      rewrite Hf, app_nil_r. by split_and!.
    + intros [= <-]. rewrite createMochaConfig_run.
      fold mochaConfigPath content. cbn [files after trace].
      rewrite lookup_insert_eq. split_and!; try reflexivity.
      intros q Hq. by rewrite lookup_insert_ne.
Qed.

(** The setup of the main execution, in the model: the installs, then
    the two configuration files, then [generateAll]. *)
Lemma main_setup (w : World) :
  exists setup fs,
    main w = generateAll (after w setup fs)
    /\ List.filter is_exec setup
       = [ EvExec "npm install -D @playwright/test playwright";
           EvExec "npm install -D selenium-webdriver @types/selenium-webdriver mocha @types/mocha chai @types/chai ts-mocha typescript";
           EvExec "npm install -D testcafe";
           EvExec "npm install -D webdriverio appium @wdio/appium-service" ]
    /\ count is_generate setup = 0
    /\ count is_write setup <= 2
    /\ is_Some (fs !! Path.join_up TESTDIR "tsconfig.json")
    /\ is_Some (fs !! Path.join_up TESTDIR ".mocharc.json").
Proof.
  unfold main.
  destruct (installDependencies_events w) as (e1 & Hrun & Hexec & _ & Hg & Hw).
  unfold bind at 1. rewrite Hrun.
  unfold bind at 1. rewrite createTsConfig_run. cbn [files after].
  destruct (files w !! Path.join_up TESTDIR "tsconfig.json") as [old1|] eqn:H1;
    unfold bind at 1; rewrite createMochaConfig_run; cbn [files after].
  - destruct (files w !! Path.join_up TESTDIR ".mocharc.json") as [old2|] eqn:H2.
    + exists e1, (files w). split; [reflexivity|].
      rewrite H1, H2. split_and!; [done | done | lia | done | done].
    + rewrite after_after. eexists _, _. split; [reflexivity|].
      rewrite List.filter_app, Hexec. count_events. rewrite Hg, Hw.
      split_and!; [done | done | lia | | by rewrite lookup_insert_eq].
      apply lookup_insert_is_Some'. right. by rewrite H1.
  - destruct (<[Path.join_up TESTDIR "tsconfig.json"
                :=Json.stringify EmptyString tsConfig]> (files w)
              !! Path.join_up TESTDIR ".mocharc.json") as [old2|] eqn:H2.
    + rewrite after_after. eexists _, _. split; [reflexivity|].
      rewrite H2, List.filter_app, Hexec. count_events. rewrite Hg, Hw.
      split_and!; [done | done | lia | by rewrite lookup_insert_eq | done].
    + rewrite !after_after. eexists _, _. split; [reflexivity|].
      rewrite !List.filter_app, Hexec. count_events. rewrite Hg, Hw.
      split_and!; [done | done | lia | | by rewrite lookup_insert_eq].
      apply lookup_insert_is_Some'. right. by rewrite lookup_insert_eq.
Qed.

(** X4.  When the main execution returns, it has gone through the setup
    and then through [generateAll], which returned.  The commands of
    the setup are the four installs, in their order and whatever they
    replied; the setup makes no generation request and at most two
    writes, and when [generateAll] starts both configuration files are
    there. *)
Theorem main_setup_precedes_generation (w w' : World) :
  main w = (Normal tt, w') ->
  exists setup fs,
    generateAll (after w setup fs) = (Normal tt, w')
    /\ List.filter is_exec setup
       = [ EvExec "npm install -D @playwright/test playwright";
           EvExec "npm install -D selenium-webdriver @types/selenium-webdriver mocha @types/mocha chai @types/chai ts-mocha typescript";
           EvExec "npm install -D testcafe";
           EvExec "npm install -D webdriverio appium @wdio/appium-service" ]
    /\ count is_generate setup = 0
    /\ count is_write setup <= 2
    /\ is_Some (fs !! Path.join_up TESTDIR "tsconfig.json")
    /\ is_Some (fs !! Path.join_up TESTDIR ".mocharc.json").
Proof.
  intros Hmain.
  destruct (main_setup w) as (setup & fs & Hrun & H).
  exists setup, fs. split; [by rewrite <- Hrun | exact H].
Qed.

(** ** More on the loop *)

(** X5.  The frameworks [executeTestScript] has a command for are exactly
    those with an entry of their own in [OUTPUT_FILES].  For any other
    identifier [generateAndDebug] throws at once, at [path.join]:
    nothing is logged, requested, written or run. *)
Theorem frameworks_agree (framework : string) (w : World) :
  (known framework = true <-> is_Some (OUTPUT_FILES !! framework))
  /\ (known framework = false ->
      exists e, generateAndDebug framework w = (Throw e, w)).
Proof.
  assert (Hown : known framework = true -> is_Some (OUTPUT_FILES !! framework)).
  { unfold known.
    destruct (String.eqb_spec framework "PLAYWRIGHT") as [->|_]; [by eexists|].
    destruct (String.eqb_spec framework "TESTCAFE") as [->|_]; [by eexists|].
    destruct (String.eqb_spec framework "SELENIUM") as [->|_]; [by eexists|].
    discriminate. }
  split_and!.
  - split; [exact Hown|]. intros [name Hname]. by apply (output_file_known _ name).
  - intros Hk. destruct (OUTPUT_FILES !! framework) as [name|] eqn:Hname.
    + apply output_file_known in Hname. congruence.
    + unfold generateAndDebug. rewrite Hname. eexists. reflexivity.
Qed.

(** One failed pass: the loop goes on with the error text of the
    execution, in the world after the events of the pass. *)
Lemma while_loop_failed_pass (framework outputPath command : string)
    (v : LoopVars) (w : World) (response : option Genai.Response) (err : JsError) :
  run_command framework outputPath = ret command ->
  loop_condition v = true ->
  ai_reply w (requests w) = Normal response ->
  shell_reply w (commands w) = Throw err ->
  while_loop framework outputPath v w =
    while_loop framework outputPath
      (mkVars (S (attempt v)) false (error_output err))
      (after w (failed_attempt framework outputPath command (attempt v)
                  (lastError v) response err)
             (<[outputPath := script_of response]> (files w))).
Proof.
  intros Hcmd Hc Hai Hsh. rewrite (while_loop_continue _ _ _ _ Hc).
  rewrite (attempt_body_generated _ _ _ _ _ _ Hcmd Hai). cbn zeta.
  by rewrite Hsh.
Qed.

Lemma failed_attempt_counts (framework outputPath command : string) (n : nat)
    (errorContext : string) (response : option Genai.Response) (err : JsError) :
  count is_generate
    (failed_attempt framework outputPath command n errorContext response err) = 1
  /\ count is_exec
       (failed_attempt framework outputPath command n errorContext response err) = 1
  /\ count is_write
       (failed_attempt framework outputPath command n errorContext response err) = 1.
Proof. by split_and!. Qed.

(** X6.  A run in which the three requests are answered and the three
    executions fail: [generateAndDebug] returns; its events are the start
    message, three failed passes and the report of the exhaustion; the
    first request carries no error, the second the error text of the
    first execution and the third that of the second; the report carries
    the error text of the third; the output file holds the third
    script. *)
Theorem exhausted_run (framework name : string) (w : World)
    (r0 r1 r2 : option Genai.Response) (e0 e1 e2 : JsError) :
  OUTPUT_FILES !! framework = Some name ->
  ai_reply w (requests w) = Normal r0 ->
  ai_reply w (requests w + 1) = Normal r1 ->
  ai_reply w (requests w + 2) = Normal r2 ->
  shell_reply w (commands w) = Throw e0 ->
  shell_reply w (commands w + 1) = Throw e1 ->
  shell_reply w (commands w + 2) = Throw e2 ->
  let outputPath := Path.join TESTDIR name in
  exists command,
    generateAndDebug framework w =
      (Normal tt,
       after w ([start_log framework]
                ++ failed_attempt framework outputPath command 0 EmptyString r0 e0
                ++ failed_attempt framework outputPath command 1
                     (error_output e0) r1 e1
                ++ failed_attempt framework outputPath command 2
                     (error_output e1) r2 e2
                ++ [exhausted_log framework (error_output e2)])
             (<[outputPath := script_of r2]> (files w))).
Proof.
  intros Hname Ha0 Ha1 Ha2 Hs0 Hs1 Hs2 outputPath.
  destruct (known_command framework outputPath (output_file_known _ _ Hname))
    as [command Hcmd].
  exists command. rewrite (generateAndDebug_supported _ _ _ Hname).
  fold outputPath.
  assert (Hpass : forall v w0 r e,
            loop_condition v = true ->
            ai_reply w0 (requests w0) = Normal r ->
            shell_reply w0 (commands w0) = Throw e ->
            while_loop framework outputPath v w0 =
              while_loop framework outputPath
                (mkVars (S (attempt v)) false (error_output e))
                (after w0 (failed_attempt framework outputPath command
                             (attempt v) (lastError v) r e)
                       (<[outputPath := script_of r]> (files w0))))
    by (intros; by apply while_loop_failed_pass).
  rewrite (Hpass _ _ r0 e0);
    [| reflexivity
     | by rewrite requests_after; count_events
     | by rewrite commands_after; count_events].
  rewrite after_after. cbn [attempt lastError files after].
  rewrite (Hpass _ _ r1 e1);
    [| reflexivity
     | by rewrite requests_after; count_events
     | by rewrite commands_after; count_events].
  rewrite after_after. cbn [attempt lastError files after].
  rewrite (Hpass _ _ r2 e2);
    [| reflexivity
     | by rewrite requests_after; count_events; rewrite <- Ha2; f_equal; lia
     | by rewrite commands_after; count_events; rewrite <- Hs2; f_equal; lia].
  rewrite after_after. cbn [attempt lastError files after].
  rewrite while_loop_exit by reflexivity.
  cbn [succeeded negb lastError]. rewrite after_after. cbn [files after].
  rewrite !insert_insert_eq. rewrite <- !app_assoc. reflexivity.
Qed.

(** In the loop, every script that is written is run; the requests are as
    many as the commands when the loop returns, and one more when it
    throws. *)
Lemma while_loop_balance (framework outputPath command : string) (n : nat) :
  forall (v : LoopVars) (w : World),
    run_command framework outputPath = ret command ->
    MAX_ATTEMPTS - attempt v <= n ->
    exists c new fs,
      while_loop framework outputPath v w = (c, after w new fs)
      /\ count is_write new = count is_exec new
      /\ count is_generate new
         = count is_exec new + (if rejected c then 1 else 0).
Proof.
  induction n as [|n IH]; intros v w Hcmd Hn.
  - rewrite while_loop_exit by (apply loop_condition_at_max; lia).
    exists (Normal v), [], (files w). rewrite after_nil. by split_and!.
  - destruct (loop_condition v) eqn:Hc.
    2: { rewrite (while_loop_exit _ _ _ _ Hc).
         exists (Normal v), [], (files w). rewrite after_nil. by split_and!. }
    rewrite (while_loop_continue _ _ _ _ Hc).
    apply loop_condition_true in Hc as [Hlt _].
    destruct (ai_reply w (requests w)) as [response|e] eqn:Hai.
    + rewrite (attempt_body_generated _ _ _ _ _ _ Hcmd Hai). cbn zeta.
      destruct (shell_reply w (commands w));
        match goal with |- context [while_loop _ _ ?v1 ?w1] =>
          destruct (IH v1 w1 Hcmd) as (c & new & fs & Hrun & Hw & Hg);
            [cbn [attempt]; lia|]
        end;
        rewrite Hrun, after_after; eexists c, _, fs;
        (split; [reflexivity|]); count_events; rewrite Hw, Hg; split; lia.
    + rewrite (attempt_body_rejected _ _ _ _ _ Hai).
      eexists (Throw e), _, _. split; [reflexivity|]. by count_events.
Qed.

(** X7.  In a run of [generateAndDebug] for a framework with an output
    file, every script that is written is run: the writes are as many as
    the commands.  When the run returns, each generation request was
    followed by a write and a command; when it throws, the one request
    more is the rejected one. *)
Theorem written_scripts_are_run (framework name : string) (w : World) :
  OUTPUT_FILES !! framework = Some name ->
  exists c new fs,
    generateAndDebug framework w = (c, after w new fs)
    /\ count is_write new = count is_exec new
    /\ count is_generate new = count is_exec new + (if rejected c then 1 else 0).
Proof.
  intros Hname.
  destruct (known_command framework (Path.join TESTDIR name)
              (output_file_known _ _ Hname)) as [command Hcmd].
  rewrite (generateAndDebug_supported _ _ _ Hname).
  match goal with |- context [while_loop _ _ ?v1 ?w1] =>
    destruct (while_loop_balance framework (Path.join TESTDIR name) command
                MAX_ATTEMPTS v1 w1 Hcmd) as (c & new & fs & Hrun & Hw & Hg);
      [cbn [attempt]; lia|]
  end.
  rewrite Hrun. destruct c as [v|e]; cbn [rejected] in *.
  - destruct (succeeded v); rewrite ?after_after;
      eexists (Normal tt), _, _; (split; [reflexivity|]);
      count_events; rewrite Hw, Hg; split; lia.
  - rewrite ?after_after. eexists (Throw e), _, _. split; [reflexivity|].
    count_events. rewrite Hw, Hg. split; lia.
Qed.

(** The loop when [k + 1] executions fail and the next request is
    rejected. *)
Lemma while_loop_rejected_later (framework outputPath command : string) (k : nat) :
  forall (v : LoopVars) (w : World) (r : option Genai.Response) (e : JsError),
    run_command framework outputPath = ret command ->
    succeeded v = false ->
    attempt v + S k < MAX_ATTEMPTS ->
    (forall j, j < k -> exists r', ai_reply w (requests w + j) = Normal r') ->
    ai_reply w (requests w + k) = Normal r ->
    (forall j, j <= k -> exists err, shell_reply w (commands w + j) = Throw err) ->
    ai_reply w (requests w + S k) = Throw e ->
    exists new fs,
      while_loop framework outputPath v w = (Throw e, after w new fs)
      /\ count is_generate new = S (S k)
      /\ count is_exec new = S k
      /\ count (says "💥") new = 0
      /\ fs !! outputPath = Some (script_of r).
Proof.
  induction k as [|k IH]; intros v w r e Hcmd Hs Hlt Hprev Hlast Hsh Hrej.
  - destruct (Hsh 0) as [err Herr]; [lia|].
    rewrite Nat.add_0_r in Hlast, Herr.
    rewrite (while_loop_failed_pass _ _ _ _ _ r err Hcmd); try done.
    2: { apply loop_condition_true. split; [lia | done]. }
    rewrite (while_loop_rejected _ _ _ _ e).
    + rewrite after_after. eexists _, _. split; [reflexivity|].
      cbn [files after]. rewrite lookup_insert_eq. by split_and!.
    + apply loop_condition_true. cbn. split; [lia | done].
    + rewrite requests_after. destruct (failed_attempt_counts framework
        outputPath command (attempt v) (lastError v) r err) as (-> & _ & _).
      exact Hrej.
  - destruct (Hprev 0) as [r0 Hr0]; [lia|].
    destruct (Hsh 0) as [err Herr]; [lia|].
    rewrite Nat.add_0_r in Hr0, Herr.
    rewrite (while_loop_failed_pass _ _ _ _ _ r0 err Hcmd); try done.
    2: { apply loop_condition_true. split; [lia | done]. }
    destruct (failed_attempt_counts framework outputPath command (attempt v)
                (lastError v) r0 err) as (Hg1 & He1 & _).
    match goal with |- context [while_loop _ _ ?v1 ?w1] =>
      destruct (IH v1 w1 r e Hcmd) as (new & fs & Hrun & Hg & He & Hx & Hf)
    end.
    + reflexivity.
    + cbn [attempt]. lia.
    + intros j Hj. rewrite requests_after, Hg1.
      destruct (Hprev (S j)) as [r' Hr']; [lia|]. exists r'.
      cbn [ai_reply after]. rewrite <- Hr'. f_equal. lia.
    + rewrite requests_after, Hg1. cbn [ai_reply after].
      rewrite <- Hlast. f_equal. lia.
    + intros j Hj. rewrite commands_after, He1.
      destruct (Hsh (S j)) as [err' Herr']; [lia|]. exists err'.
      cbn [shell_reply after]. rewrite <- Herr'. f_equal. lia.
    + rewrite requests_after, Hg1. cbn [ai_reply after].
      rewrite <- Hrej. f_equal. lia.
    + rewrite Hrun, after_after. eexists _, fs. split; [reflexivity|].
      rewrite !count_app, Hg, He, Hx, Hg1, He1. by split_and!.
Qed.

(** X8.  When the first [k + 1] executions fail and the request after
    them is rejected, [generateAndDebug] throws that error: it has made
    [k + 2] requests and run [k + 1] commands, it reports no exhaustion,
    and the output file is left holding the script of the last answered
    request, that of the attempt before. *)
Theorem late_rejection_keeps_previous_script (framework name : string) (k : nat)
    (w : World) (r : option Genai.Response) (e : JsError) :
  OUTPUT_FILES !! framework = Some name ->
  S k < MAX_ATTEMPTS ->
  (forall j, j < k -> exists r', ai_reply w (requests w + j) = Normal r') ->
  ai_reply w (requests w + k) = Normal r ->
  (forall j, j <= k -> exists err, shell_reply w (commands w + j) = Throw err) ->
  ai_reply w (requests w + S k) = Throw e ->
  exists new fs,
    generateAndDebug framework w = (Throw e, after w new fs)
    /\ count is_generate new = S (S k)
    /\ count is_exec new = S k
    /\ count (says "💥") new = 0
    /\ fs !! Path.join TESTDIR name = Some (script_of r).
Proof.
  intros Hname Hk Hprev Hlast Hsh Hrej.
  destruct (known_command framework (Path.join TESTDIR name)
              (output_file_known _ _ Hname)) as [command Hcmd].
  rewrite (generateAndDebug_supported _ _ _ Hname).
  match goal with |- context [while_loop _ _ ?v1 ?w1] =>
    destruct (while_loop_rejected_later framework (Path.join TESTDIR name)
                command k v1 w1 r e Hcmd)
      as (new & fs & Hrun & Hg & He & Hx & Hf)
  end.
  - reflexivity.
  - cbn [attempt]. lia.
  - intros j Hj. rewrite requests_after. count_events. by apply Hprev.
  - rewrite requests_after. by count_events.
  - intros j Hj. rewrite commands_after. count_events. by apply Hsh.
  - rewrite requests_after. by count_events.
  - rewrite Hrun, after_after. eexists _, fs. split; [reflexivity|].
    rewrite !count_app, Hg, He, Hx. by split_and!.
Qed.

(** ** The three output files *)

Lemma append_inj_l (a x y : string) : a +:+ x = a +:+ y -> x = y.
Proof.
  induction a as [|c a IH]; unfold_append; [done|].
  intros [= H]. by apply IH.
Qed.

Lemma join_inj (dir a b : string) : Path.join dir a = Path.join dir b -> a = b.
Proof.
  unfold Path.join. destruct (String.eqb dir "/"); intros H.
  - by apply append_inj_l in H.
  - by do 2 apply append_inj_l in H.
Qed.

(** What a run of [generateAndDebug] that returns leaves behind. *)
Lemma generateAndDebug_returns_file (framework : string) (w w' : World) :
  generateAndDebug framework w = (Normal tt, w') ->
  exists name response,
    OUTPUT_FILES !! framework = Some name
    /\ ai_reply w' = ai_reply w
    /\ requests w < requests w'
    /\ ai_reply w (requests w' - 1) = Normal response
    /\ files w' !! Path.join TESTDIR name = Some (script_of response)
    /\ forall p, p <> Path.join TESTDIR name -> files w' !! p = files w !! p.
Proof.
  destruct (OUTPUT_FILES !! framework) as [name|] eqn:Hname.
  2: { unfold generateAndDebug. rewrite Hname. discriminate. }
  rewrite (generateAndDebug_supported _ _ _ Hname).
  set (w0 := after w [start_log framework] (files w)).
  set (v0 := mkVars 0 false EmptyString).
  destruct (while_loop framework (Path.join TESTDIR name) v0 w0)
    as [[v|e] w1] eqn:Hrun; [|discriminate].
  destruct (while_loop_file framework (Path.join TESTDIR name) MAX_ATTEMPTS
              v0 v w0 w1 ltac:(cbn [attempt v0]; lia) Hrun)
    as (Hai & _ & _ & Hgo).
  destruct (Hgo eq_refl) as (response & Hlt & Hr & Hf & Hother).
  assert (H0 : requests w0 = requests w)
    by (unfold w0; rewrite requests_after; by count_events).
  rewrite H0 in Hlt. cbn [ai_reply w0 after] in Hr, Hai.
  cbn [files w0 after] in Hother.
  intros Hw'. exists name, response.
  assert (Hsame : requests w' = requests w1 /\ files w' = files w1
                  /\ ai_reply w' = ai_reply w1).
  { destruct (succeeded v); injection Hw' as <-; [done|].
    rewrite requests_after. by count_events. }
  destruct Hsame as (-> & -> & ->). by split_and!.
Qed.

(** X9.  When [generateAll] returns, each of the three runs has returned
    and the three output files are all there, each holding the script
    built from the reply to the last request of its own framework: a
    later framework writes its own file only. *)
Theorem generateAll_keeps_each_script (w w' : World) :
  generateAll w = (Normal tt, w') ->
  exists (w1 w2 : World) (rP rT rS : option Genai.Response),
    generateAndDebug "PLAYWRIGHT" w = (Normal tt, w1)
    /\ generateAndDebug "TESTCAFE" w1 = (Normal tt, w2)
    /\ generateAndDebug "SELENIUM" w2 = (Normal tt, w')
    /\ requests w < requests w1
    /\ requests w1 < requests w2
    /\ requests w2 < requests w'
    /\ ai_reply w (requests w1 - 1) = Normal rP
    /\ ai_reply w (requests w2 - 1) = Normal rT
    /\ ai_reply w (requests w' - 1) = Normal rS
    /\ files w' !! Path.join TESTDIR "google_navigation.playwright.spec.ts"
       = Some (script_of rP)
    /\ files w' !! Path.join TESTDIR "google_navigation.testcafe.ts"
       = Some (script_of rT)
    /\ files w' !! Path.join TESTDIR "google_navigation.selenium.spec.cjs"
       = Some (script_of rS).
Proof.
  unfold generateAll. unfold bind at 1.
  destruct (generateAndDebug "PLAYWRIGHT" w) as [[[]|e] w1] eqn:HP; [|discriminate].
  unfold bind at 1.
  destruct (generateAndDebug "TESTCAFE" w1) as [[[]|e] w2] eqn:HT; [|discriminate].
  intros HS. exists w1, w2.
  destruct (generateAndDebug_returns_file _ _ _ HP)
    as (nP & rP & HnP & HaP & HltP & HrP & HfP & HoP).
  destruct (generateAndDebug_returns_file _ _ _ HT)
    as (nT & rT & HnT & HaT & HltT & HrT & HfT & HoT).
  destruct (generateAndDebug_returns_file _ _ _ HS)
    as (nS & rS & HnS & HaS & HltS & HrS & HfS & HoS).
  change (Some "google_navigation.playwright.spec.ts" = Some nP) in HnP.
  change (Some "google_navigation.testcafe.ts" = Some nT) in HnT.
  change (Some "google_navigation.selenium.spec.cjs" = Some nS) in HnS.
  injection HnP as <-. injection HnT as <-. injection HnS as <-.
  exists rP, rT, rS. rewrite HaT, HaP in HrS. rewrite HaP in HrT.
  split_and!; try done.
  - rewrite HoS, HoT; [done | |]; intros H%join_inj; discriminate.
  - rewrite HoS; [done|]. intros H%join_inj; discriminate.
Qed.

(** ** The cleaning of a text part *)

Lemma join_cons_char (c : ascii) (l : string) (ls : list string) :
  Js.join Js.nl (String c l :: ls) = String c (Js.join Js.nl (l :: ls)).
Proof. unfold Js.join. by destruct ls. Qed.

(** Joining the lines of a string gives the string back. *)
Lemma join_split_lines (s : string) : Js.join Js.nl (Js.split_lines s) = s.
Proof.
  induction s as [|c s IH]; [reflexivity|]. cbn [Js.split_lines].
  destruct (Ascii.eqb_spec c "010"%char) as [->|_].
  - pose proof (split_lines_nonempty s) as Hne.
    destruct (Js.split_lines s) as [|l ls]; [done|].
    change (Js.join Js.nl (EmptyString :: l :: ls))
      with (Js.nl +:+ Js.join Js.nl (l :: ls)).
    by rewrite IH.
  - pose proof (split_lines_nonempty s) as Hne.
    destruct (Js.split_lines s) as [|l ls]; [done|].
    by rewrite join_cons_char, IH.
Qed.

Lemma filter_all {A} (f : A -> bool) (l : list A) :
  forallb f l = true -> List.filter f l = l.
Proof.
  induction l as [|x l IH]; [done|]. cbn.
  intros [Hx Hl]%andb_prop. by rewrite Hx, IH.
Qed.

Lemma cleaned_fixed (text : string) :
  forallb fence_free (Js.split_lines text) = true -> cleaned text = text.
Proof.
  intros H. unfold cleaned. fold fence_free.
  rewrite (filter_all _ _ H). apply join_split_lines.
Qed.

(** X10.  A text in which no line contains the fence comes out of the
    cleaning unchanged: the split at line feeds and the join undo each
    other, so nothing but fence lines is ever lost. *)
Theorem cleaned_keeps_fence_free_text (text : string) :
  forallb fence_free (Js.split_lines text) = true ->
  cleaned text = text.
Proof. apply cleaned_fixed. Qed.

(** X11.  Cleaning is idempotent: a cleaned text has no fence line left,
    so cleaning it again changes nothing. *)
Theorem cleaned_idempotent (text : string) :
  cleaned (cleaned text) = cleaned text.
Proof.
  apply cleaned_fixed.
  change (cleaned text) with (Js.join Js.nl (kept_lines text)).
  pose proof (kept_lines_single text) as Hs.
  pose proof (kept_lines_fence_free text) as Hf.
  destruct (kept_lines text) as [|l ls] eqn:Hk; [reflexivity|].
  rewrite split_lines_join by done.
  apply List.forallb_forall. intros x Hx.
  rewrite List.Forall_forall in Hf. unfold fence_free. by rewrite (Hf x Hx).
Qed.

(** ** The lines of a script *)

Lemma split_lines_append (a b : string) :
  Js.split_lines (a +:+ Js.nl +:+ b) = Js.split_lines a ++ Js.split_lines b.
Proof.
  induction a as [|c a IH]; unfold_append; [reflexivity|].
  cbn [Js.split_lines]. rewrite IH.
  destruct (Ascii.eqb c "010"); [reflexivity|].
  pose proof (split_lines_nonempty a) as Hne.
  by destruct (Js.split_lines a).
Qed.

Lemma concat_lines (pieces : list string) :
  Js.split_lines (Js.concat_all (List.map (fun piece => piece +:+ Js.nl) pieces))
  = flat_map Js.split_lines pieces ++ [EmptyString].
Proof.
  induction pieces as [|piece pieces IH]; [reflexivity|].
  cbn [List.map Js.concat_all fold_right flat_map].
  change (fold_right String.append EmptyString
            (List.map (fun piece0 => piece0 +:+ Js.nl) pieces))
    with (Js.concat_all (List.map (fun piece0 => piece0 +:+ Js.nl) pieces)).
  by rewrite append_assoc, split_lines_append, IH, <- app_assoc.
Qed.

(** The lines of a script: the provenance comment, an empty line, the
    lines of the retained pieces in order, and a last empty line. *)
Lemma script_lines (response : option Genai.Response) :
  Js.split_lines (script_of response)
  = provenance :: EmptyString
    :: flat_map Js.split_lines (omap retained (response_parts response))
    ++ [EmptyString].
Proof.
  unfold script_of. cbn zeta. rewrite fold_append_part, append_nil_l.
  rewrite split_lines_append.
  change (Js.split_lines provenance) with [provenance]. cbn [app].
  change (Js.nl +:+ ?x) with (EmptyString +:+ Js.nl +:+ x).
  rewrite split_lines_append, concat_lines. reflexivity.
Qed.

(** X12.  When no part of the response is retained as executable code
    (every part has a text, or has no code), no line of the script
    contains a fence: the script is the provenance comment, an empty
    line, the fence-free lines of the texts and a last empty line. *)
Theorem text_only_script_has_no_fence (response : option Genai.Response) :
  Forall (fun part => Js.truthy_opt (Genai.text part) = true
                      \/ Js.truthy_opt (part_code part) = false)
         (response_parts response) ->
  Forall (fun line => Js.includes line fence = false)
         (Js.split_lines (script_of response)).
Proof.
  intros Hparts. rewrite script_lines.
  constructor; [reflexivity|]. constructor; [reflexivity|].
  apply Forall_app. split; [|by constructor].
  induction Hparts as [|part parts Hpart _ IH]; [constructor|].
  cbn [omap list_omap]. fold (omap retained parts).
  destruct (retained part) as [piece|] eqn:Hr; [|exact IH].
  cbn [flat_map]. apply Forall_app. split; [|exact IH].
  unfold retained in Hr.
  destruct (Genai.text part) as [[|c t]|] eqn:Ht.
  - destruct Hpart as [Hpart|Hpart]; [discriminate|].
    destruct (part_code part) as [[|c' t']|]; discriminate.
  - injection Hr as <-.
    pose proof (kept_lines_single (String c t)) as Hs.
    pose proof (kept_lines_fence_free (String c t)) as Hf.
    destruct (kept_lines (String c t)) as [|l ls]; [by constructor|].
    by rewrite split_lines_join.
  - destruct Hpart as [Hpart|Hpart]; [discriminate|].
    destruct (part_code part) as [[|c' t']|]; discriminate.
Qed.

(** ** The command and the file *)

Lemma split_slash_nonempty (s : string) : Path.split_slash s <> [].
Proof.
  induction s as [|c s IH]; cbn [Path.split_slash]; [done|].
  destruct (Ascii.eqb c "/"); [done|]. by destruct (Path.split_slash s).
Qed.

Lemma split_slash_append (a b : string) :
  Path.split_slash (a +:+ "/" +:+ b) = Path.split_slash a ++ Path.split_slash b.
Proof.
  induction a as [|c a IH]; [reflexivity|].
  rewrite (append_cons c a). cbn [Path.split_slash]. rewrite IH.
  destruct (Ascii.eqb c "/"); [reflexivity|].
  pose proof (split_slash_nonempty a) as Hne.
  by destruct (Path.split_slash a).
Qed.

Lemma split_slash_plain (s : string) :
  Path.plain s = true -> Path.split_slash s = [s].
Proof.
  induction s as [|c s IH]; [reflexivity|]. cbn [Path.plain Path.split_slash].
  intros [Hc Hs]%andb_prop. apply negb_true_iff in Hc.
  by rewrite Hc, (IH Hs).
Qed.

(** The base name of a directory extended by one component is that
    component. *)
Lemma basename_join (dir name : string) :
  Path.plain name = true -> name <> EmptyString ->
  Path.basename (Path.join dir name) = name.
Proof.
  intros Hp Hn. unfold Path.basename, Path.join.
  apply truthy_nonempty in Hn. destruct (String.eqb dir "/").
  - change ("/" +:+ name) with (EmptyString +:+ "/" +:+ name).
    rewrite split_slash_append, (split_slash_plain _ Hp).
    cbn [Path.split_slash app List.filter]. rewrite Hn. reflexivity.
  - rewrite split_slash_append, (split_slash_plain _ Hp), List.filter_app.
    cbn [List.filter]. rewrite Hn. apply List.last_last.
Qed.

Lemma output_file_plain (framework name : string) :
  OUTPUT_FILES !! framework = Some name ->
  Path.plain name = true /\ name <> EmptyString.
Proof.
  intros H. pose proof (output_file_known _ _ H) as Hk. unfold known in Hk.
  destruct (String.eqb_spec framework "PLAYWRIGHT") as [->|_];
    [injection H as <-; by split|].
  destruct (String.eqb_spec framework "TESTCAFE") as [->|_];
    [injection H as <-; by split|].
  destruct (String.eqb_spec framework "SELENIUM") as [->|_];
    [injection H as <-; by split|].
  discriminate.
Qed.

(** X13.  The command [executeTestScript] runs for a framework on its
    output path names the very file [generateAndDebug] writes: after
    [cd TESTDIR], playwright and testcafe are given the file name of
    [OUTPUT_FILES], which is the base name of the output path, and mocha
    is given the output path itself, between quotes. *)
Theorem command_runs_written_file (framework name : string) (w : World) :
  OUTPUT_FILES !! framework = Some name ->
  let outputPath := Path.join TESTDIR name in
  trace (snd (executeTestScript framework outputPath w))
  = trace w
    ++ [EvExec ("cd " +:+ TESTDIR +:+ " && "
                +:+ (if String.eqb framework "PLAYWRIGHT"
                     then "npx playwright test " +:+ name
                     else if String.eqb framework "TESTCAFE"
                     then "npx testcafe chrome " +:+ name
                     else "npx mocha " +:+ Js.dquote +:+ outputPath
                          +:+ Js.dquote))].
Proof.
  intros Hname outputPath.
  destruct (output_file_plain _ _ Hname) as [Hp Hn].
  pose proof (output_file_known _ _ Hname) as Hk.
  assert (Hcmd : run_command framework outputPath =
                 ret (if String.eqb framework "PLAYWRIGHT"
                      then "npx playwright test " +:+ name
                      else if String.eqb framework "TESTCAFE"
                      then "npx testcafe chrome " +:+ name
                      else "npx mocha " +:+ Js.dquote +:+ outputPath
                           +:+ Js.dquote)).
  { unfold run_command, outputPath. rewrite (basename_join _ _ Hp Hn).
    unfold Path.resolve. apply truthy_nonempty in Hn. rewrite Hn.
    unfold known in Hk.
    destruct (String.eqb framework "PLAYWRIGHT"); [reflexivity|].
    destruct (String.eqb framework "TESTCAFE"); [reflexivity|].
    destruct (String.eqb framework "SELENIUM"); [reflexivity|discriminate]. }
  by rewrite (executeTestScript_known _ _ _ _ Hcmd).
Qed.

(** ** The prompts as loaded *)

(** X14.  Loading [basePrompts] scans the project three times, once for
    each template, and writes nothing.  The table has a template for
    exactly the frameworks that have an output file, and each template
    carries the listing of the project, the [tests] directory and the
    name of the framework's output file. *)
Theorem basePrompts_loaded (root : string) (project : list Dirent) (w : World) :
  let context := Js.join Js.nl (omap listed (walk root project)) in
  let reads := List.map EvReaddir (root :: omap scanned (walk root project)) in
  exists table,
    load_basePrompts TESTDIR root project w
    = (Normal table, after w (reads ++ reads ++ reads) (files w))
    /\ (forall framework,
          is_Some (table !! framework) <-> is_Some (OUTPUT_FILES !! framework))
    /\ forall framework name prompt,
         OUTPUT_FILES !! framework = Some name ->
         table !! framework = Some prompt ->
         Js.includes prompt context = true
         /\ Js.includes prompt TESTDIR = true
         /\ Js.includes prompt name = true.
Proof.
  intros context reads. eexists. split; [apply load_basePrompts_table|].
  fold context. split.
  - intros framework. unfold OUTPUT_FILES.
    rewrite !lookup_insert_is_Some, !lookup_empty. unfold is_Some.
    naive_solver.
  - intros framework name prompt Hname Hprompt.
    pose proof (output_file_known _ _ Hname) as Hk. unfold known in Hk.
    assert (Hin : forall a b c d n,
              Js.includes (a +:+ context +:+ b +:+ TESTDIR +:+ c +:+ n +:+ d)
                context = true
              /\ Js.includes (a +:+ context +:+ b +:+ TESTDIR +:+ c +:+ n +:+ d)
                   TESTDIR = true
              /\ Js.includes (a +:+ context +:+ b +:+ TESTDIR +:+ c +:+ n +:+ d)
                   n = true).
    { intros a b c d n. split_and!.
      - apply includes_append.
      - do 3 apply includes_skip. apply includes_prefix, prefix_append.
      - do 5 apply includes_skip. apply includes_prefix, prefix_append. }
    destruct (String.eqb_spec framework "PLAYWRIGHT") as [->|Hne1].
    { rewrite lookup_insert_eq in Hprompt. injection Hprompt as <-.
      injection Hname as <-. apply Hin. }
    rewrite lookup_insert_ne in Hprompt by done.
    destruct (String.eqb_spec framework "TESTCAFE") as [->|Hne2].
    { rewrite lookup_insert_eq in Hprompt. injection Hprompt as <-.
      injection Hname as <-. apply Hin. }
    rewrite lookup_insert_ne in Hprompt by done.
    destruct (String.eqb_spec framework "SELENIUM") as [->|Hne3]; [|discriminate].
    rewrite lookup_insert_eq in Hprompt. injection Hprompt as <-.
    injection Hname as <-. apply Hin.
Qed.

End Agent.

(** * Concrete runs *)

(** The scenario's listing and prompts are those the module computes for
    the scenario's project. *)
Example scenario_context :
  fst (getProjectContext "/repo" Scenario.project Scenario.all_fail)
  = Normal Scenario.context
  /\ fst (load_basePrompts Scenario.testdir "/repo" Scenario.project
            Scenario.all_fail)
     = Normal Scenario.prompts.
Proof. split; vm_compute; reflexivity. Qed.

Lemma success_stops_loop_witness :
  OUTPUT_FILES !! "PLAYWRIGHT" = Some "google_navigation.playwright.spec.ts"
  /\ 1 <= 2 <= MAX_ATTEMPTS
  /\ exists events earlier fs,
       generateAndDebug Scenario.testdir Scenario.prompts "PLAYWRIGHT"
         Scenario.second_try
       = (Normal tt, after Scenario.second_try events fs)
       /\ events = earlier ++ [success_log "PLAYWRIGHT";
                               EvConsole Log "1 passed"]
       /\ count is_generate events = 2
       /\ count is_write events = 2
       /\ count is_exec events = 2.
Proof.
  split; [reflexivity|]. split; [unfold MAX_ATTEMPTS; lia|].
  apply (success_stops_loop Scenario.testdir Scenario.prompts "PLAYWRIGHT"
           "google_navigation.playwright.spec.ts" 2 Scenario.second_try
           {| stdout := "1 passed"; exec_stderr := EmptyString |}).
  - reflexivity.
  - unfold MAX_ATTEMPTS. lia.
  - intros j _. by eexists.
  - intros [|j] Hj; [by eexists | lia].
  - reflexivity.
Defined.

Lemma prompt_carries_error_witness :
  Scenario.prompts !! "PLAYWRIGHT"
  = Some (playwrightPrompt Scenario.testdir Scenario.context)
  /\ "Timeout 30000ms exceeded" <> EmptyString
  /\ promptText Scenario.prompts "PLAYWRIGHT" "Timeout 30000ms exceeded"
     = Some (playwrightPrompt Scenario.testdir Scenario.context
             +:+ Js.nl +:+ Js.nl
             +:+ "The previous attempt failed with the following error:"
             +:+ Js.nl +:+ "Timeout 30000ms exceeded" +:+ Js.nl
             +:+ "Please correct the code and regenerate.")
  /\ promptText Scenario.prompts "PLAYWRIGHT" EmptyString
     = Some (playwrightPrompt Scenario.testdir Scenario.context).
Proof.
  split; [reflexivity|]. split; [discriminate|].
  destruct (prompt_carries_error Scenario.prompts "PLAYWRIGHT"
              (playwrightPrompt Scenario.testdir Scenario.context)
              "Timeout 30000ms exceeded" Scenario.second_try)
    as (Hprompt & _ & Hbase & _); [reflexivity | discriminate |].
  split; [exact Hprompt | exact Hbase].
Defined.

(** A generation request that is refused: the error leaves
    [generateAndDebug], after one request and no retry. *)
Lemma generation_error_escapes :
  fst (generateAndDebug Scenario.testdir Scenario.prompts "PLAYWRIGHT"
         Scenario.refused)
  = Throw Scenario.quota
  /\ requests (snd (generateAndDebug Scenario.testdir Scenario.prompts
                      "PLAYWRIGHT" Scenario.refused)) = 1
  /\ fst (generateAll Scenario.testdir Scenario.prompts Scenario.refused)
     = Throw Scenario.quota.
Proof. vm_compute. split_and!; reflexivity. Qed.

Lemma execution_errors_feed_retry_witness :
  OUTPUT_FILES !! "PLAYWRIGHT" = Some "google_navigation.playwright.spec.ts"
  /\ loop_condition (mkVars 0 false EmptyString) = true
  /\ (exists c command rest fs,
        while_loop Scenario.testdir Scenario.prompts "PLAYWRIGHT"
          (Path.join Scenario.testdir "google_navigation.playwright.spec.ts")
          (mkVars 0 false EmptyString) Scenario.second_try
        = (c, after Scenario.second_try
                ([attempt_log "PLAYWRIGHT" 0;
                  generation_event Scenario.prompts "PLAYWRIGHT" EmptyString;
                  EvWriteFile
                    (Path.join Scenario.testdir "google_navigation.playwright.spec.ts")
                    (script_of Scenario.fenced_reply);
                  EvExec command;
                  failure_log "PLAYWRIGHT" 0 "Timeout 30000ms exceeded"]
                 ++ [attempt_log "PLAYWRIGHT" 1;
                     generation_event Scenario.prompts "PLAYWRIGHT"
                       "Timeout 30000ms exceeded"] ++ rest) fs))
  /\ fst (generateAndDebug Scenario.testdir Scenario.prompts "PLAYWRIGHT"
            Scenario.refused) = Throw Scenario.quota.
Proof.
  split; [reflexivity|]. split; [reflexivity|].
  destruct (execution_errors_feed_retry Scenario.testdir Scenario.prompts
              "PLAYWRIGHT" "google_navigation.playwright.spec.ts"
              (mkVars 0 false EmptyString) Scenario.second_try
              eq_refl eq_refl) as (_ & Hexec & _).
  destruct (Hexec Scenario.fenced_reply Scenario.timeout eq_refl eq_refl)
    as (c & command & rest & fs & Hrun & Hnext).
  destruct Hnext as [rest' ->]; [unfold MAX_ATTEMPTS; cbn; lia|].
  split; [by exists c, command, rest', fs|].
  destruct (execution_errors_feed_retry Scenario.testdir Scenario.prompts
              "PLAYWRIGHT" "google_navigation.playwright.spec.ts"
              (mkVars 0 false EmptyString) Scenario.refused
              eq_refl eq_refl) as (_ & _ & Hgen).
  exact (proj1 (proj2 (Hgen Scenario.quota eq_refl))).
Defined.

(** Every execution fails for all three frameworks: the TESTCAFE loop
    starts before the SELENIUM loop, the exhaustion of SELENIUM is
    reported, and no TESTCAFE loop starts after that report. *)
Lemma selenium_runs_last :
  let t := trace (snd (generateAll Scenario.testdir Scenario.prompts
                         Scenario.all_fail)) in
  existsb (says "💥 [SELENIUM] All 3 attempts failed.") t = true
  /\ occurs_after (says "💥 [SELENIUM] All 3 attempts failed.")
       (says (Js.nl +:+ "🔧 Generating tests for TESTCAFE...")) t = false
  /\ occurs_after (says (Js.nl +:+ "🔧 Generating tests for TESTCAFE..."))
       (says (Js.nl +:+ "🔧 Generating tests for SELENIUM...")) t = true
  /\ count (says "💥 [") t = 3.
Proof. vm_compute. split_and!; reflexivity. Qed.

Lemma exhaustion_does_not_block_next_witness :
  exhausts Scenario.all_fail
  /\ exists before err fs1 c rest fs,
       generateAndDebug Scenario.testdir Scenario.prompts "PLAYWRIGHT"
         Scenario.all_fail
       = (Normal tt,
          after Scenario.all_fail
            (before ++ [exhausted_log "PLAYWRIGHT" err]) fs1)
       /\ generateAll Scenario.testdir Scenario.prompts Scenario.all_fail
          = (c, after Scenario.all_fail
                  (before ++ [exhausted_log "PLAYWRIGHT" err]
                   ++ [start_log "TESTCAFE"; attempt_log "TESTCAFE" 0;
                       generation_event Scenario.prompts "TESTCAFE" EmptyString]
                   ++ rest) fs).
Proof.
  assert (H : exhausts Scenario.all_fail)
    by (split; intros j _; by eexists).
  split; [exact H|].
  exact (proj1 (exhaustion_does_not_block_next Scenario.testdir Scenario.prompts
                  Scenario.all_fail) H).
Defined.

(** The first script fails and the second, a different one, passes: the
    file holds the second. *)
Lemma output_file_holds_last_script_witness :
  OUTPUT_FILES !! "PLAYWRIGHT" = Some "google_navigation.playwright.spec.ts"
  /\ fst (generateAndDebug Scenario.testdir Scenario.prompts "PLAYWRIGHT"
            Scenario.improving) = Normal tt
  /\ requests (snd (generateAndDebug Scenario.testdir Scenario.prompts
                      "PLAYWRIGHT" Scenario.improving)) = 2
  /\ ai_reply Scenario.improving 1 = Normal Scenario.mixed_reply
  /\ files (snd (generateAndDebug Scenario.testdir Scenario.prompts
                   "PLAYWRIGHT" Scenario.improving))
     !! Path.join Scenario.testdir "google_navigation.playwright.spec.ts"
     = Some (script_of Scenario.mixed_reply)
  /\ String.eqb (script_of Scenario.mixed_reply)
       (script_of Scenario.fenced_reply) = false.
Proof.
  pose proof (output_file_holds_last_script Scenario.testdir Scenario.prompts
                "PLAYWRIGHT" "google_navigation.playwright.spec.ts"
                Scenario.improving _ _ eq_refl
                (surjective_pairing
                   (generateAndDebug Scenario.testdir Scenario.prompts
                      "PLAYWRIGHT" Scenario.improving)))
    as (_ & _ & Hfile).
  split_and!; [reflexivity | reflexivity | reflexivity | reflexivity | |
               reflexivity].
  cbv zeta in Hfile.
  assert (Hlast : ai_reply Scenario.improving
                    (requests (snd (generateAndDebug Scenario.testdir
                                      Scenario.prompts "PLAYWRIGHT"
                                      Scenario.improving)) - 1)
                  = Normal Scenario.mixed_reply)
    by (vm_compute; reflexivity).
  rewrite Hlast in Hfile. exact (Hfile eq_refl).
Defined.

(** The service refuses the first request: the loop ends and there is no
    file at the output path.  The service answers the first request and
    refuses the second: the loop ends at its second attempt and the file
    still holds the script of the first. *)
Lemma rejected_request_leaves_earlier_script :
  fst (generateAndDebug Scenario.testdir Scenario.prompts "PLAYWRIGHT"
         Scenario.refused) = Throw Scenario.quota
  /\ files (snd (generateAndDebug Scenario.testdir Scenario.prompts
                   "PLAYWRIGHT" Scenario.refused))
     !! Path.join Scenario.testdir "google_navigation.playwright.spec.ts"
     = None
  /\ fst (generateAndDebug Scenario.testdir Scenario.prompts "PLAYWRIGHT"
            Scenario.refused_later) = Throw Scenario.quota
  /\ count (says "🧠 Executing [PLAYWRIGHT] test:: Attempt #")
       (trace (snd (generateAndDebug Scenario.testdir Scenario.prompts
                      "PLAYWRIGHT" Scenario.refused_later))) = 2
  /\ ai_reply Scenario.refused_later 0 = Normal Scenario.fenced_reply
  /\ files (snd (generateAndDebug Scenario.testdir Scenario.prompts
                   "PLAYWRIGHT" Scenario.refused_later))
     !! Path.join Scenario.testdir "google_navigation.playwright.spec.ts"
     = Some (script_of Scenario.fenced_reply).
Proof. split_and!; reflexivity. Qed.

(** A reply with prose, a fenced block, a part of code and a part with
    neither: the script it gives. *)
Lemma script_follows_parts_witness :
  script_of Scenario.mixed_reply
  = "// *** This code is generated by AI Agent ***" +:+ Js.nl +:+ Js.nl
    +:+ "Here is the test:" +:+ Js.nl
    +:+ "const assert = require('assert');" +:+ Js.nl
    +:+ "console.log('step 1');" +:+ Js.nl.
Proof.
  rewrite (proj1 (script_follows_parts Scenario.prompts Scenario.mixed_reply)).
  reflexivity.
Defined.

(** The scan of the project of the scenario. *)
Lemma getProjectContext_listing_witness :
  getProjectContext "/repo" Scenario.project Scenario.all_fail
  = (Normal ("📁 /repo/src" +:+ Js.nl +:+ "📄 /repo/src/agent.ts" +:+ Js.nl
             +:+ "📄 /repo/run.js"),
     after Scenario.all_fail [EvReaddir "/repo"; EvReaddir "/repo/src"]
       (files Scenario.all_fail)).
Proof.
  rewrite (proj1 (getProjectContext_listing "/repo" Scenario.project
                    Scenario.all_fail)).
  reflexivity.
Defined.

(** Three directories beneath the root, two of them named [node_modules]
    and [.git]: the listing has one line, that of the third. *)
Lemma excluded_directory_is_not_listed :
  fst (getProjectContext "/repo"
         [Dir "node_modules" [File "index.ts"]; Dir "src" []; Dir ".git" []]
         Scenario.all_fail)
  = Normal "📁 /repo/src".
Proof. reflexivity. Qed.


(** Three executions that time out: the run of the TESTCAFE loop. *)
Lemma exhausted_run_witness :
  OUTPUT_FILES !! "TESTCAFE" = Some "google_navigation.testcafe.ts"
  /\ exists command,
       generateAndDebug Scenario.testdir Scenario.prompts "TESTCAFE"
         Scenario.all_fail
       = (Normal tt,
          after Scenario.all_fail
            ([start_log "TESTCAFE"]
             ++ failed_attempt Scenario.testdir Scenario.prompts "TESTCAFE"
                  (Path.join Scenario.testdir "google_navigation.testcafe.ts")
                  command 0 EmptyString Scenario.fenced_reply Scenario.timeout
             ++ failed_attempt Scenario.testdir Scenario.prompts "TESTCAFE"
                  (Path.join Scenario.testdir "google_navigation.testcafe.ts")
                  command 1 (error_output Scenario.timeout)
                  Scenario.fenced_reply Scenario.timeout
             ++ failed_attempt Scenario.testdir Scenario.prompts "TESTCAFE"
                  (Path.join Scenario.testdir "google_navigation.testcafe.ts")
                  command 2 (error_output Scenario.timeout)
                  Scenario.fenced_reply Scenario.timeout
             ++ [exhausted_log "TESTCAFE" (error_output Scenario.timeout)])
            (<[Path.join Scenario.testdir "google_navigation.testcafe.ts"
               := script_of Scenario.fenced_reply]> (files Scenario.all_fail))).
Proof.
  split; [reflexivity|].
  exact (exhausted_run Scenario.testdir Scenario.prompts "TESTCAFE"
           "google_navigation.testcafe.ts" Scenario.all_fail
           Scenario.fenced_reply Scenario.fenced_reply Scenario.fenced_reply
           Scenario.timeout Scenario.timeout Scenario.timeout
           eq_refl eq_refl eq_refl eq_refl eq_refl eq_refl eq_refl).
Defined.

(** The counts of a run that the service ends by refusing the first
    request: one request, no write, no command. *)
Lemma written_scripts_are_run_witness :
  OUTPUT_FILES !! "SELENIUM" = Some "google_navigation.selenium.spec.cjs"
  /\ exists c new fs,
       generateAndDebug Scenario.testdir Scenario.prompts "SELENIUM"
         Scenario.refused
       = (c, after Scenario.refused new fs)
       /\ count is_write new = count is_exec new
       /\ count is_generate new
          = count is_exec new + (if rejected c then 1 else 0).
Proof.
  split; [reflexivity|].
  exact (written_scripts_are_run Scenario.testdir Scenario.prompts "SELENIUM"
           "google_navigation.selenium.spec.cjs" Scenario.refused eq_refl).
Defined.

(** The second request is refused: the file keeps the first script. *)
Lemma late_rejection_keeps_previous_script_witness :
  1 < MAX_ATTEMPTS
  /\ ai_reply Scenario.refused_later (requests Scenario.refused_later + 1)
     = Throw Scenario.quota
  /\ exists new fs,
       generateAndDebug Scenario.testdir Scenario.prompts "PLAYWRIGHT"
         Scenario.refused_later
       = (Throw Scenario.quota, after Scenario.refused_later new fs)
       /\ count is_generate new = 2
       /\ count is_exec new = 1
       /\ count (says "💥") new = 0
       /\ fs !! Path.join Scenario.testdir
                  "google_navigation.playwright.spec.ts"
          = Some (script_of Scenario.fenced_reply).
Proof.
  split; [unfold MAX_ATTEMPTS; lia|]. split; [reflexivity|].
  apply (late_rejection_keeps_previous_script Scenario.testdir Scenario.prompts
           "PLAYWRIGHT" "google_navigation.playwright.spec.ts" 0
           Scenario.refused_later Scenario.fenced_reply Scenario.quota).
  - reflexivity.
  - unfold MAX_ATTEMPTS; lia.
  - intros j Hj; lia.
  - reflexivity.
  - intros j _. exists Scenario.timeout. reflexivity.
  - reflexivity.
Defined.

(** The three loops of a run in which every second execution passes. *)
Lemma generateAll_keeps_each_script_witness :
  generateAll Scenario.testdir Scenario.prompts Scenario.second_try
  = (Normal tt,
     snd (generateAll Scenario.testdir Scenario.prompts Scenario.second_try))
  /\ exists (w1 w2 : World) (rP rT rS : option Genai.Response),
       generateAndDebug Scenario.testdir Scenario.prompts "PLAYWRIGHT"
         Scenario.second_try = (Normal tt, w1)
       /\ generateAndDebug Scenario.testdir Scenario.prompts "TESTCAFE" w1
          = (Normal tt, w2)
       /\ generateAndDebug Scenario.testdir Scenario.prompts "SELENIUM" w2
          = (Normal tt,
             snd (generateAll Scenario.testdir Scenario.prompts
                    Scenario.second_try))
       /\ requests Scenario.second_try < requests w1
       /\ requests w1 < requests w2
       /\ requests w2
          < requests (snd (generateAll Scenario.testdir Scenario.prompts
                             Scenario.second_try))
       /\ ai_reply Scenario.second_try (requests w1 - 1) = Normal rP
       /\ ai_reply Scenario.second_try (requests w2 - 1) = Normal rT
       /\ ai_reply Scenario.second_try
            (requests (snd (generateAll Scenario.testdir Scenario.prompts
                              Scenario.second_try)) - 1) = Normal rS
       /\ files (snd (generateAll Scenario.testdir Scenario.prompts
                        Scenario.second_try))
          !! Path.join Scenario.testdir "google_navigation.playwright.spec.ts"
          = Some (script_of rP)
       /\ files (snd (generateAll Scenario.testdir Scenario.prompts
                        Scenario.second_try))
          !! Path.join Scenario.testdir "google_navigation.testcafe.ts"
          = Some (script_of rT)
       /\ files (snd (generateAll Scenario.testdir Scenario.prompts
                        Scenario.second_try))
          !! Path.join Scenario.testdir "google_navigation.selenium.spec.cjs"
          = Some (script_of rS).
Proof.
  assert (H : generateAll Scenario.testdir Scenario.prompts Scenario.second_try
              = (Normal tt,
                 snd (generateAll Scenario.testdir Scenario.prompts
                        Scenario.second_try))).
  { rewrite (surjective_pairing (generateAll _ _ _)) at 1. f_equal. }
  split; [exact H|].
  exact (generateAll_keeps_each_script Scenario.testdir Scenario.prompts
           Scenario.second_try _ H).
Defined.

(** Two lines of code without a fence. *)
Lemma cleaned_keeps_fence_free_text_witness :
  forallb fence_free
    (Js.split_lines ("const a = 1;" +:+ Js.nl +:+ "const b = `${a}`;")) = true
  /\ cleaned ("const a = 1;" +:+ Js.nl +:+ "const b = `${a}`;")
     = "const a = 1;" +:+ Js.nl +:+ "const b = `${a}`;".
Proof.
  split; [reflexivity|].
  exact (cleaned_keeps_fence_free_text
           ("const a = 1;" +:+ Js.nl +:+ "const b = `${a}`;") eq_refl).
Defined.

(** The fenced reply is one text part: its script has no fence line. *)
Lemma text_only_script_has_no_fence_witness :
  Forall (fun line => Js.includes line fence = false)
    (Js.split_lines (script_of Scenario.fenced_reply)).
Proof.
  apply (text_only_script_has_no_fence Scenario.fenced_reply).
  constructor; [left; reflexivity | constructor].
Defined.

(** The command of the SELENIUM loop on its output path. *)
Lemma command_runs_written_file_witness :
  OUTPUT_FILES !! "SELENIUM" = Some "google_navigation.selenium.spec.cjs"
  /\ trace (snd (executeTestScript Scenario.testdir "SELENIUM"
                   (Path.join Scenario.testdir
                      "google_navigation.selenium.spec.cjs")
                   Scenario.all_fail))
     = trace Scenario.all_fail
       ++ [EvExec ("cd " +:+ Scenario.testdir +:+ " && npx mocha " +:+ Js.dquote
                   +:+ Path.join Scenario.testdir
                         "google_navigation.selenium.spec.cjs"
                   +:+ Js.dquote)].
Proof.
  split; [reflexivity|].
  exact (command_runs_written_file Scenario.testdir "SELENIUM"
           "google_navigation.selenium.spec.cjs" Scenario.all_fail eq_refl).
Defined.

(** No configuration file is there: [createTsConfig] writes the rendered
    [tsConfig], and a second call does nothing. *)
Lemma createTsConfig_keeps_existing_witness :
  createTsConfig Scenario.testdir Scenario.all_fail
  = (Normal tt, snd (createTsConfig Scenario.testdir Scenario.all_fail))
  /\ files (snd (createTsConfig Scenario.testdir Scenario.all_fail))
     !! "/repo/tsconfig.json"
     = Some (Json.stringify EmptyString tsConfig)
  /\ createTsConfig Scenario.testdir
       (snd (createTsConfig Scenario.testdir Scenario.all_fail))
     = (Normal tt, snd (createTsConfig Scenario.testdir Scenario.all_fail)).
Proof.
  assert (H : createTsConfig Scenario.testdir Scenario.all_fail
              = (Normal tt,
                 snd (createTsConfig Scenario.testdir Scenario.all_fail)))
    by reflexivity.
  destruct (proj2 (createTsConfig_keeps_existing Scenario.testdir
                     Scenario.all_fail) _ H) as (Hfile & _ & _ & Hagain).
  split_and!; [exact H | exact Hfile | exact Hagain].
Defined.

(** No configuration file is there: [createMochaConfig] writes the
    rendered [mochaConfig], and a second call does nothing. *)
Lemma createMochaConfig_keeps_existing_witness :
  createMochaConfig Scenario.testdir Scenario.all_fail
  = (Normal tt, snd (createMochaConfig Scenario.testdir Scenario.all_fail))
  /\ files (snd (createMochaConfig Scenario.testdir Scenario.all_fail))
     !! "/repo/.mocharc.json"
     = Some ("{" +:+ Js.nl
             +:+ "  " +:+ Json.quote "extension" +:+ ": [" +:+ Js.nl
             +:+ "    " +:+ Json.quote "ts" +:+ Js.nl
             +:+ "  ]," +:+ Js.nl
             +:+ "  " +:+ Json.quote "spec" +:+ ": "
             +:+ Json.quote "tests/**/*.spec.ts" +:+ "," +:+ Js.nl
             +:+ "  " +:+ Json.quote "require" +:+ ": "
             +:+ Json.quote "ts-node/register" +:+ "," +:+ Js.nl
             +:+ "  " +:+ Json.quote "timeout" +:+ ": 60000" +:+ Js.nl
             +:+ "}")
  /\ createMochaConfig Scenario.testdir
       (snd (createMochaConfig Scenario.testdir Scenario.all_fail))
     = (Normal tt, snd (createMochaConfig Scenario.testdir Scenario.all_fail)).
Proof.
  assert (H : createMochaConfig Scenario.testdir Scenario.all_fail
              = (Normal tt,
                 snd (createMochaConfig Scenario.testdir Scenario.all_fail)))
    by reflexivity.
  destruct (proj2 (createMochaConfig_keeps_existing Scenario.testdir
                     Scenario.all_fail) _ H) as (Hfile & _ & _ & Hagain).
  split_and!; [exact H | exact Hfile | exact Hagain].
Defined.

(** The main execution when the first install fails and every test
    passes. *)
Lemma main_setup_precedes_generation_witness :
  main Scenario.testdir Scenario.prompts message Scenario.second_try
  = (Normal tt,
     snd (main Scenario.testdir Scenario.prompts message Scenario.second_try))
  /\ exists setup fs,
       generateAll Scenario.testdir Scenario.prompts
         (after Scenario.second_try setup fs)
       = (Normal tt,
          snd (main Scenario.testdir Scenario.prompts message
                 Scenario.second_try))
       /\ List.filter is_exec setup
          = [ EvExec "npm install -D @playwright/test playwright";
              EvExec "npm install -D selenium-webdriver @types/selenium-webdriver mocha @types/mocha chai @types/chai ts-mocha typescript";
              EvExec "npm install -D testcafe";
              EvExec "npm install -D webdriverio appium @wdio/appium-service" ]
       /\ count is_generate setup = 0
       /\ count is_write setup <= 2
       /\ is_Some (fs !! Path.join_up Scenario.testdir "tsconfig.json")
       /\ is_Some (fs !! Path.join_up Scenario.testdir ".mocharc.json").
Proof.
  assert (Hfst : fst (main Scenario.testdir Scenario.prompts message
                        Scenario.second_try) = Normal tt)
    by (vm_compute; reflexivity).
  assert (H : main Scenario.testdir Scenario.prompts message Scenario.second_try
              = (Normal tt,
                 snd (main Scenario.testdir Scenario.prompts message
                        Scenario.second_try))).
  { rewrite (surjective_pairing (main _ _ _ _)) at 1. by rewrite Hfst. }
  split; [exact H|].
  exact (main_setup_precedes_generation Scenario.testdir Scenario.prompts
           message Scenario.second_try _ H).
Defined.
